(** * EC2 instance collector (silverte/tools, main.go)

    A shallow embedding of [main.go]: the account loader, the per-account
    fetcher, the fan-out in [main], the console report and the CSV writer.

    Go strings are byte sequences and are modelled by [string] (a list of
    8-bit [ascii]).  Pointers of the SDK response ([*string]) are [option]s,
    and dereferencing [nil] is a panic.  Everything the program obtains from
    outside (the file system, the cloud API, the clock, the order in which
    the goroutines deliver their results) is a field of [World]. *)

From Stdlib Require Import String Ascii List ZArith Lia Bool.
From stdpp Require Import base option list strings gmap.

Local Open Scope string_scope.
Local Open Scope list_scope.

(** [simpl] unfolds string concatenation on a constructor. *)
#[local] Arguments String.append !s1 s2 : simpl nomatch.

(** ** Panics and errors *)

(** The result of a computation that may panic (nil dereference). *)
Inductive result (A : Type) : Type :=
| Ok (a : A)
| Panic.
Arguments Ok {A} a.
Arguments Panic {A}.

#[global] Instance result_ret : MRet result := fun _ a => Ok a.
#[global] Instance result_bind : MBind result := fun _ _ f m =>
  match m with
  | Ok a => f a
  | Panic => Panic
  end.

(** [*p] for a [*string]. *)
Definition deref {A : Type} (p : option A) : result A :=
  match p with
  | Some a => Ok a
  | None => Panic
  end.

(** A Go [error], identified with its message. *)
Definition error := string.

(** ** The SDK types the program reads *)

Module types.
Record Tag := {
  Key : option string;
  Value : option string
}.

Record Instance := {
  InstanceId : option string;
  InstanceType : string;
  Tags : list Tag
}.

Record Reservation := {
  Instances : list Instance
}.
End types.

Module ec2.
Record DescribeInstancesInput := {
  In_NextToken : option string
}.

Record DescribeInstancesOutput := {
  Reservations : list types.Reservation;
  NextToken : option string
}.
End ec2.

Module aws.
Record Config := {
  Region : string;
  Credentials : option string
}.
End aws.

(** ** The program's own types *)

Record EC2Instance := {
  AccountID : string;
  InstanceID : string;
  TagName : string;
  InstanceType : string
}.

Record AccountConfig := {
  cfg_AccountID : string;
  cfg_RoleArn : string
}.

(** ** loadAccountsFromFile *)

(** The loop of lines 49-52: later entries overwrite earlier ones. *)
Definition accountsOf (accountConfigs : list AccountConfig) : gmap string string :=
  foldl (fun accounts acc => <[cfg_AccountID acc := cfg_RoleArn acc]> accounts)
        ∅ accountConfigs.

(** ** getEC2Instances *)

(** The cloud boundary of one run.  [LoadDefaultConfig a] is the outcome of
    the call made by the task of account [a]; [DescribeInstances] answers a
    request made with a client configuration. *)
Record Cloud := {
  LoadDefaultConfig : string -> error + aws.Config;
  DescribeInstances :
    aws.Config -> ec2.DescribeInstancesInput -> error + ec2.DescribeInstancesOutput
}.

(** Lines 93-99: the scan for the Name tag. *)
Fixpoint findTagName (tags : list types.Tag) : result string :=
  match tags with
  | [] => Ok "-"
  | tag :: rest =>
      key ← deref (types.Key tag);
      if String.eqb key "Name" then deref (types.Value tag)
      else findTagName rest
  end.

(** Lines 89-106: the body of the inner loop, one record per instance. *)
Definition toRecord (accountID : string) (instance : types.Instance)
  : result EC2Instance :=
  instanceID ← deref (types.InstanceId instance);
  let instanceType := types.InstanceType instance in
  tagName ← findTagName (types.Tags instance);
  Ok {| AccountID := accountID; InstanceID := instanceID;
        TagName := tagName; InstanceType := instanceType |}.

(** Line 88: the inner loop, appending to [instances]. *)
Fixpoint collectInstances (accountID : string) (l : list types.Instance)
    (instances : list EC2Instance) : result (list EC2Instance) :=
  match l with
  | [] => Ok instances
  | instance :: rest =>
      r ← toRecord accountID instance;
      collectInstances accountID rest (instances ++ [r])
  end.

(** Line 87: the outer loop. *)
Fixpoint collectReservations (accountID : string) (l : list types.Reservation)
    (instances : list EC2Instance) : result (list EC2Instance) :=
  match l with
  | [] => Ok instances
  | reservation :: rest =>
      instances' ← collectInstances accountID (types.Instances reservation) instances;
      collectReservations accountID rest instances'
  end.

(** [%d] of a non-negative [int]. *)
Fixpoint itoa_aux (fuel n : nat) (acc : string) : string :=
  match fuel with
  | O => acc
  | S fuel' =>
      let acc' := String (ascii_of_nat (48 + n mod 10)) acc in
      if Nat.ltb n 10 then acc' else itoa_aux fuel' (n / 10) acc'
  end.

Definition itoa (n : nat) : string := itoa_aux (S n) n "".

(** What one task did: the inventory requests it issued, the lines it
    logged and the slice it sent on [results], unless it panicked. *)
Record Fetched := {
  calls : list ec2.DescribeInstancesInput;
  logged : list string;
  sent : result (list EC2Instance)
}.

(** Lines 70-72: the configuration with the assumed-role credentials. *)
Definition assumeRole (cfg : aws.Config) (roleArn : string) : aws.Config :=
  {| aws.Region := aws.Region cfg; aws.Credentials := Some roleArn |}.

(** Line 78: [&ec2.DescribeInstancesInput{}], no token set. *)
Definition emptyInput : ec2.DescribeInstancesInput :=
  {| ec2.In_NextToken := None |}.

Definition getEC2Instances (cloud : Cloud) (accountID roleArn : string)
  : Fetched :=
  match LoadDefaultConfig cloud accountID with
  | inl err =>
      {| calls := [];
         logged := ["[" +:+ accountID +:+ "] AWS 설정 로드 실패: " +:+ err];
         sent := Ok [] |}
  | inr cfg =>
      let cfg := assumeRole cfg roleArn in
      match DescribeInstances cloud cfg emptyInput with
      | inl err =>
          {| calls := [emptyInput];
             logged := ["[" +:+ accountID +:+ "] EC2 인스턴스 조회 실패: " +:+ err];
             sent := Ok [] |}
      | inr result =>
          match collectReservations accountID (ec2.Reservations result) [] with
          | Panic => {| calls := [emptyInput]; logged := []; sent := Panic |}
          | Ok instances =>
              {| calls := [emptyInput];
                 logged := ["[" +:+ accountID +:+ "] "
                            +:+ itoa (length instances) +:+ "개 인스턴스 조회 완료"];
                 sent := Ok instances |}
          end
      end
  end.

(** ** Runes: unicode/utf8 and unicode.IsSpace

    [fmt] pads by rune count and [csv.Writer] quotes a field whose first
    rune is a space, so both need the UTF-8 decoder. *)

Module utf8.
Definition RuneError : N := 65533%N.

Definition between (lo b hi : N) : bool := N.leb lo b && N.leb b hi.

(** The first rune of [s] and its width in bytes; an invalid or short
    encoding is [RuneError] of width 1, the empty string has width 0. *)
Definition DecodeRuneInString (s : string) : N * nat :=
  match s with
  | EmptyString => (RuneError, 0)
  | String c0 s1 =>
      let b0 := N_of_ascii c0 in
      if N.ltb b0 128 then (b0, 1)
      else if between 194 b0 223 then
        match s1 with
        | String c1 _ =>
            let b1 := N_of_ascii c1 in
            if between 128 b1 191
            then (((b0 mod 32) * 64 + b1 mod 64)%N, 2)
            else (RuneError, 1)
        | _ => (RuneError, 1)
        end
      else if between 224 b0 239 then
        match s1 with
        | String c1 (String c2 _) =>
            let b1 := N_of_ascii c1 in
            let b2 := N_of_ascii c2 in
            let lo := if N.eqb b0 224 then 160%N else 128%N in
            let hi := if N.eqb b0 237 then 159%N else 191%N in
            if between lo b1 hi && between 128 b2 191
            then (((b0 mod 16) * 4096 + (b1 mod 64) * 64 + b2 mod 64)%N, 3)
            else (RuneError, 1)
        | _ => (RuneError, 1)
        end
      else if between 240 b0 244 then
        match s1 with
        | String c1 (String c2 (String c3 _)) =>
            let b1 := N_of_ascii c1 in
            let b2 := N_of_ascii c2 in
            let b3 := N_of_ascii c3 in
            let lo := if N.eqb b0 240 then 144%N else 128%N in
            let hi := if N.eqb b0 244 then 143%N else 191%N in
            if between lo b1 hi && between 128 b2 191 && between 128 b3 191
            then (((b0 mod 8) * 262144 + (b1 mod 64) * 4096
                   + (b2 mod 64) * 64 + b3 mod 64)%N, 4)
            else (RuneError, 1)
        | _ => (RuneError, 1)
        end
      else (RuneError, 1)
  end.

Fixpoint skip (n : nat) (s : string) : string :=
  match n, s with
  | S n', String _ s' => skip n' s'
  | _, _ => s
  end.

Fixpoint count_aux (fuel : nat) (s : string) : nat :=
  match fuel, s with
  | S fuel', String _ _ =>
      S (count_aux fuel' (skip (snd (DecodeRuneInString s)) s))
  | _, _ => 0
  end.

Definition RuneCountInString (s : string) : nat :=
  count_aux (String.length s) s.
End utf8.

Module unicode.
Definition IsSpace (r : N) : bool :=
  if N.leb r 255 then
    utf8.between 9 r 13 || N.eqb r 32 || N.eqb r 133 || N.eqb r 160
  else
    N.eqb r 5760 || utf8.between 8192 r 8202 || utf8.between 8232 r 8233
    || N.eqb r 8239 || N.eqb r 8287 || N.eqb r 12288.
End unicode.

(** ** strings and fmt *)

Definition LF : ascii := ascii_of_nat 10.
Definition CR : ascii := ascii_of_nat 13.
Definition DQUOTE : ascii := ascii_of_nat 34.
Definition COMMA : ascii := ascii_of_nat 44.

Definition nl : string := String LF "".

Module strings.
Fixpoint Repeat (s : string) (count : nat) : string :=
  match count with
  | O => ""
  | S n => s +:+ Repeat s n
  end.
End strings.

Module fmt.
(** [%-Ws]: the string, then spaces up to [W] runes. *)
Definition padRight (wid : nat) (s : string) : string :=
  s +:+ strings.Repeat " " (wid - utf8.RuneCountInString s).

(** The format ["%-15s %-20s %-30s %-20s\n"] of lines 190 and 197. *)
Definition row (a b c d : string) : string :=
  padRight 15 a +:+ " " +:+ padRight 20 b +:+ " "
  +:+ padRight 30 c +:+ " " +:+ padRight 20 d +:+ nl.
End fmt.

(** ** encoding/csv: the Writer *)

Module csv.
Record Writer := {
  Comma : ascii;
  UseCRLF : bool;
  out : string
}.

Definition NewWriter : Writer :=
  {| Comma := COMMA; UseCRLF := false; out := "" |}.

Definition errInvalidDelim : error := "csv: invalid field or comment delimiter".

(** [Comma] is modelled as a byte, so only the ASCII delimiters are
    accepted; [NewWriter] uses the comma. *)
Definition validDelim (r : ascii) : bool :=
  negb (Ascii.eqb r (ascii_of_nat 0)) && negb (Ascii.eqb r DQUOTE)
  && negb (Ascii.eqb r CR) && negb (Ascii.eqb r LF)
  && N.ltb (N_of_ascii r) 128.

Fixpoint hasSpecial (comma : ascii) (field : string) : bool :=
  match field with
  | EmptyString => false
  | String c rest =>
      Ascii.eqb c LF || Ascii.eqb c CR || Ascii.eqb c DQUOTE || Ascii.eqb c comma
      || hasSpecial comma rest
  end.

Definition fieldNeedsQuotes (w : Writer) (field : string) : bool :=
  if String.eqb field "" then false
  else if String.eqb field "\." then true
  else if hasSpecial (Comma w) field then true
  else unicode.IsSpace (fst (utf8.DecodeRuneInString field)).

(** The loop that copies a quoted field, encoding the special bytes. *)
Fixpoint escape (useCRLF : bool) (field : string) : string :=
  match field with
  | EmptyString => ""
  | String c rest =>
      if Ascii.eqb c DQUOTE then String DQUOTE (String DQUOTE (escape useCRLF rest))
      else if Ascii.eqb c CR then
        (if useCRLF then escape useCRLF rest else String CR (escape useCRLF rest))
      else if Ascii.eqb c LF then
        (if useCRLF then String CR (String LF (escape useCRLF rest))
         else String LF (escape useCRLF rest))
      else String c (escape useCRLF rest)
  end.

Definition writeField (w : Writer) (field : string) : string :=
  if fieldNeedsQuotes w field
  then String DQUOTE (escape (UseCRLF w) field) +:+ String DQUOTE ""
  else field.

(** The fields of one record, [n] being the index of the first. *)
Fixpoint writeFields (w : Writer) (n : nat) (record : list string) : string :=
  match record with
  | [] => ""
  | field :: rest =>
      (if Nat.ltb 0 n then String (Comma w) "" else "")
      +:+ writeField w field +:+ writeFields w (S n) rest
  end.

Definition Write (w : Writer) (record : list string) : error + Writer :=
  if negb (validDelim (Comma w)) then inl errInvalidDelim
  else inr {| Comma := Comma w; UseCRLF := UseCRLF w;
              out := out w +:+ writeFields w 0 record
                     +:+ (if UseCRLF w then String CR nl else nl) |}.
End csv.

(** ** time.Format *)

Module time.
(** A local wall-clock reading, broken down. *)
Record Time := {
  Year : nat;
  Month : nat;
  Day : nat;
  Hour : nat;
  Minute : nat;
  Second : nat
}.

(** Decimal digits of [x], zero-padded on the left to [width]. *)
Definition appendInt (x width : nat) : string :=
  strings.Repeat "0" (width - String.length (itoa x)) +:+ itoa x.

(** [t.Format("20060102_150405")]. *)
Definition Format (t : Time) : string :=
  appendInt (Year t) 4 +:+ appendInt (Month t) 2 +:+ appendInt (Day t) 2
  +:+ "_" +:+ appendInt (Hour t) 2 +:+ appendInt (Minute t) 2
  +:+ appendInt (Second t) 2.
End time.

(** ** The world of one run *)

Record World := {
  (** [os.Args] *)
  Args : list string;
  (** [os.ReadFile] and [json.Unmarshal] into [[]AccountConfig] *)
  ReadFile : string -> error + string;
  Unmarshal : string -> error + list AccountConfig;
  cloud : Cloud;
  (** The order in which the tasks' slices arrive on [results]: map
      iteration order composed with the completion order of the tasks. *)
  arrival : gmap string string -> list (string * string);
  (** Local time as a function of the ticks elapsed since the process
      started, and the ticks elapsed when control reaches line 210. *)
  wallclock : nat -> time.Time;
  elapsed : nat;
  (** [os.Create]; once the file exists, writes to it succeed. *)
  Create : string -> option error
}.

(** A scheduler delivers one slice per account of the map, in some order. *)
Definition fair (w : World) : Prop :=
  forall accounts : gmap string string, arrival w accounts ≡ₚ map_to_list accounts.

Definition loadAccountsFromFile (w : World) (filename : string)
  : error + gmap string string :=
  match ReadFile w filename with
  | inl err => inl ("파일 읽기 실패: " +:+ err)
  | inr data =>
      match Unmarshal w data with
      | inl err => inl ("JSON 파싱 실패: " +:+ err)
      | inr accountConfigs => inr (accountsOf accountConfigs)
      end
  end.

(** ** writeCSV *)

Definition header : list string :=
  ["Account ID"; "Instance ID"; "Tag Name"; "Instance Type"].

Definition toRow (instance : EC2Instance) : list string :=
  [AccountID instance; InstanceID instance; TagName instance; InstanceType instance].

(** Lines 134-144; on an error the writer is left as it was. *)
Fixpoint writeRecords (writer : csv.Writer) (instances : list EC2Instance)
  : option error * csv.Writer :=
  match instances with
  | [] => (None, writer)
  | instance :: rest =>
      match csv.Write writer (toRow instance) with
      | inl err => (Some ("데이터 작성 실패: " +:+ err), writer)
      | inr writer' => writeRecords writer' rest
      end
  end.

(** The returned error, and the content of the file if it was created
    (the deferred [Flush] runs on every path after line 125). *)
Definition writeCSV (create : string -> option error) (filename : string)
    (instances : list EC2Instance) : option error * option string :=
  match create filename with
  | Some err => (Some ("파일 생성 실패: " +:+ err), None)
  | None =>
      let writer := csv.NewWriter in
      match csv.Write writer header with
      | inl err => (Some ("헤더 작성 실패: " +:+ err), Some (csv.out writer))
      | inr writer =>
          let '(err, writer) := writeRecords writer instances in
          (err, Some (csv.out writer))
      end
  end.

(** ** main *)

Definition separator : string := strings.Repeat "=" 95.

Definition summary (allInstances : list EC2Instance) : string :=
  "총 " +:+ itoa (length allInstances) +:+ "개 인스턴스 조회 완료".

Definition tableRow (instance : EC2Instance) : string :=
  fmt.row (AccountID instance) (InstanceID instance)
          (TagName instance) (InstanceType instance).

Definition tableBody (allInstances : list EC2Instance) : string :=
  if Nat.eqb (length allInstances) 0
  then "조회된 EC2 인스턴스가 없습니다." +:+ nl
  else foldr (fun instance s => tableRow instance +:+ s) "" allInstances.

(** Lines 189-207: what is printed before the CSV is written. *)
Definition report (allInstances : list EC2Instance) : string :=
  (nl +:+ separator +:+ nl)
  +:+ fmt.row "Account ID" "Instance ID" "Tag Name" "Instance Type"
  +:+ (separator +:+ nl)
  +:+ tableBody allInstances
  +:+ (separator +:+ nl)
  +:+ (summary allInstances +:+ nl).

(** A traversal that stops at the first panic. *)
Fixpoint traverse {A B : Type} (f : A -> result B) (l : list A) : result (list B) :=
  match l with
  | [] => Ok []
  | a :: rest =>
      b ← f a;
      bs ← traverse f rest;
      Ok (b :: bs)
  end.

(** Lines 173-176: one task per entry of the map. *)
Definition fanOut (cloud : Cloud) (tasks : list (string * string)) : list Fetched :=
  map (fun task => getEC2Instances cloud task.1 task.2) tasks.

(** Lines 183-186: draining the channel. *)
Definition drain (results : list (list EC2Instance)) : list EC2Instance :=
  foldl (fun allInstances instances => allInstances ++ instances) [] results.

Definition outputFileName (timestamp : string) : string :=
  "ec2_instances_" +:+ timestamp +:+ ".csv".

Inductive Status :=
| Exited (code : nat)
| Crashed.

Record Run := {
  status : Status;
  stdout : string;
  logs : list string;
  allInstances_of : list EC2Instance;
  file : option (string * string)
}.

Definition usage : string :=
  "사용법: go run main.go <accounts.json>" +:+ nl
  +:+ "예시: go run main.go accounts.json" +:+ nl.

(** A panic in any task ends the process before anything is printed.  The
    task lines of [logs] are listed in arrival order, one of the
    interleavings the program allows. *)
Definition main (w : World) : Run :=
  match Args w with
  | _ :: inputFile :: _ =>
      let log1 := ["계정 정보 로드 중: " +:+ inputFile] in
      match loadAccountsFromFile w inputFile with
      | inl err =>
          {| status := Exited 1; stdout := "";
             logs := log1 ++ ["계정 정보 로드 실패: " +:+ err];
             allInstances_of := []; file := None |}
      | inr accounts =>
          let log2 := log1 ++ [itoa (size accounts) +:+ "개 계정 로드 완료";
                               "EC2 인스턴스 조회 시작..."] in
          let fetched := fanOut (cloud w) (arrival w accounts) in
          match traverse sent fetched with
          | Panic =>
              {| status := Crashed; stdout := ""; logs := log2;
                 allInstances_of := []; file := None |}
          | Ok results =>
              let allInstances := drain results in
              let log3 := log2 ++ concat (map logged fetched) in
              let out := report allInstances in
              let timestamp := time.Format (wallclock w (elapsed w)) in
              let outputFile := outputFileName timestamp in
              let log4 := log3 ++ ["CSV 파일 저장 중: " +:+ outputFile] in
              match writeCSV (Create w) outputFile allInstances with
              | (Some err, content) =>
                  {| status := Exited 1; stdout := out;
                     logs := log4 ++ ["CSV 저장 실패: " +:+ err];
                     allInstances_of := allInstances;
                     file := option_map (pair outputFile) content |}
              | (None, content) =>
                  {| status := Exited 0;
                     stdout := out +:+ nl +:+ "✓ CSV 파일 저장 완료: "
                               +:+ outputFile +:+ nl;
                     logs := log4;
                     allInstances_of := allInstances;
                     file := option_map (pair outputFile) content |}
              end
          end
      end
  | _ =>
      {| status := Exited 1; stdout := usage; logs := [];
         allInstances_of := []; file := None |}
  end.

(** ** Reading the CSV back *)

(** Modelled from the spec: the repository has a CSV writer only; the
    reader is the inverse the spec's round trip speaks of, with the standard
    quoting rules: a field is bare or enclosed in double quotes, inside
    quotes a doubled quote stands for one quote and every other byte
    (comma, CR and LF included) for itself, fields are separated by commas
    and records end with a line feed. *)
Module reader.
Inductive state :=
| FieldStart
| Bare
| Quoted
| QuoteSeen.

Definition snoc (s : string) (c : ascii) : string := s +:+ String c "".

Fixpoint parse (st : state) (field : string) (record : list string)
    (records : list (list string)) (input : string)
  : option (list (list string)) :=
  match input with
  | EmptyString =>
      match st with
      | Quoted => None
      | FieldStart =>
          match record with
          | [] => Some records
          | _ => Some (records ++ [record ++ [field]])
          end
      | Bare | QuoteSeen => Some (records ++ [record ++ [field]])
      end
  | String c rest =>
      match st with
      | FieldStart =>
          if Ascii.eqb c DQUOTE then parse Quoted "" record records rest
          else if Ascii.eqb c COMMA
          then parse FieldStart "" (record ++ [""]) records rest
          else if Ascii.eqb c LF then
            match record with
            | [] => parse FieldStart "" [] records rest
            | _ => parse FieldStart "" [] (records ++ [record ++ [""]]) rest
            end
          else parse Bare (String c "") record records rest
      | Bare =>
          if Ascii.eqb c DQUOTE then None
          else if Ascii.eqb c COMMA
          then parse FieldStart "" (record ++ [field]) records rest
          else if Ascii.eqb c LF
          then parse FieldStart "" [] (records ++ [record ++ [field]]) rest
          else parse Bare (snoc field c) record records rest
      | Quoted =>
          if Ascii.eqb c DQUOTE then parse QuoteSeen field record records rest
          else parse Quoted (snoc field c) record records rest
      | QuoteSeen =>
          if Ascii.eqb c DQUOTE
          then parse Quoted (snoc field DQUOTE) record records rest
          else if Ascii.eqb c COMMA
          then parse FieldStart "" (record ++ [field]) records rest
          else if Ascii.eqb c LF
          then parse FieldStart "" [] (records ++ [record ++ [field]]) rest
          else None
      end
  end.

Definition ReadAll (input : string) : option (list (list string)) :=
  parse FieldStart "" [] [] input.

Definition fromRow (row : list string) : option EC2Instance :=
  match row with
  | [a; i; n; t] =>
      Some {| AccountID := a; InstanceID := i; TagName := n; InstanceType := t |}
  | _ => None
  end.

(** The records of a file: the rows after the header row. *)
Definition records (input : string) : option (list EC2Instance) :=
  rows ← ReadAll input;
  match rows with
  | h :: data => if decide (h = header) then mapM fromRow data else None
  | [] => None
  end.
End reader.

(** ** Vocabulary of the properties *)

(** The instances of a response, reservation by reservation. *)
Definition flatten (rs : list types.Reservation) : list types.Instance :=
  concat (map types.Instances rs).

Definition notName (t : types.Tag) : Prop := types.Key t <> Some "Name".

(** [firstNameTag tags v]: [v] is the value of the first tag of [tags]
    whose key is exactly ["Name"], or ["-"] when there is none. *)
Inductive firstNameTag : list types.Tag -> string -> Prop :=
| name_absent tags :
    Forall notName tags -> firstNameTag tags "-"
| name_first pre tag post v :
    Forall notName pre ->
    types.Key tag = Some "Name" ->
    types.Value tag = Some v ->
    firstNameTag (pre ++ tag :: post) v.

(** The tags the scan visits: those with no Name tag before them. *)
Definition scanned (tags : list types.Tag) (tag : types.Tag) : Prop :=
  exists pre post, tags = pre ++ tag :: post /\ Forall notName pre.

(** What the scan dereferences is set: the key of every visited tag, and
    the value of the Name tag it stops at. *)
Definition tagsDerefOk (tags : list types.Tag) : Prop :=
  forall tag, scanned tags tag ->
    types.Key tag <> None
    /\ (types.Key tag = Some "Name" -> types.Value tag <> None).

Definition derefOk (rs : list types.Reservation) : Prop :=
  forall i, i ∈ flatten rs ->
    types.InstanceId i <> None /\ tagsDerefOk (types.Tags i).

(** Every identifier, key and value pointer of the response is set. *)
Definition allPointersSet (rs : list types.Reservation) : Prop :=
  Forall (fun i =>
            types.InstanceId i <> None
            /\ Forall (fun t => types.Key t <> None /\ types.Value t <> None)
                      (types.Tags i))
         (flatten rs).

(** The task of an account fails: loading the configuration or the
    inventory query returns an error. *)
Inductive fetchFails (cloud : Cloud) (accountID roleArn : string) : Prop :=
| load_fails err :
    LoadDefaultConfig cloud accountID = inl err ->
    fetchFails cloud accountID roleArn
| query_fails cfg err :
    LoadDefaultConfig cloud accountID = inr cfg ->
    DescribeInstances cloud (assumeRole cfg roleArn) emptyInput = inl err ->
    fetchFails cloud accountID roleArn.

(** The instances of the reply to the task's token-less request. *)
Definition firstPage (cloud : Cloud) (accountID roleArn : string)
  : list types.Instance :=
  match LoadDefaultConfig cloud accountID with
  | inr cfg =>
      match DescribeInstances cloud (assumeRole cfg roleArn) emptyInput with
      | inr result => flatten (ec2.Reservations result)
      | inl _ => []
      end
  | inl _ => []
  end.


(** What follows the first field of a line: each further field after a
    comma, then the line feed. *)
Fixpoint csvTail (fields : list string) : string :=
  match fields with
  | [] => nl
  | field :: rest =>
      String COMMA (csv.writeField csv.NewWriter field +:+ csvTail rest)
  end.

(** The states in which the reader has a complete field in hand. *)
Inductive fieldRead : reader.state -> string -> Prop :=
| read_empty : fieldRead reader.FieldStart ""
| read_bare field : fieldRead reader.Bare field
| read_quoted field : fieldRead reader.QuoteSeen field.

(** The bytes of a file: the header line, then one line per record. *)
Definition csvLine (record : list string) : string :=
  csv.writeFields csv.NewWriter 0 record +:+ nl.

Definition csvLines (instances : list EC2Instance) : string :=
  foldr (fun instance s => csvLine (toRow instance) +:+ s) "" instances.

Definition csvText (instances : list EC2Instance) : string :=
  csvLine header +:+ csvLines instances.

(** The rows handed to [Write], in order: the header, then the records. *)
Definition csvRows (instances : list EC2Instance) : list (list string) :=
  header :: map toRow instances.

(** The name of the output file of a run. *)
Definition outputFile (w : World) : string :=
  outputFileName (time.Format (wallclock w (elapsed w))).


Definition uniqueIDs (accountConfigs : list AccountConfig) : list string :=
  remove_dups (map cfg_AccountID accountConfigs).

(** The number a string of decimal digits denotes, read after [v]. *)
Fixpoint atoi_from (v : nat) (s : string) : nat :=
  match s with
  | EmptyString => v
  | String c rest => atoi_from (10 * v + (nat_of_ascii c - 48)) rest
  end.

Definition atoi (s : string) : nat := atoi_from 0 s.

Definition isDigit (c : ascii) : bool :=
  Nat.leb 48 (nat_of_ascii c) && Nat.leb (nat_of_ascii c) 57.

Fixpoint allDigits (s : string) : bool :=
  match s with
  | EmptyString => true
  | String c rest => isDigit c && allDigits rest
  end.

(** A reading a clock can return: fields within two digits, the year
    within four. *)
Definition civil (t : time.Time) : Prop :=
  time.Year t < 100 * 100 /\ time.Month t < 100 /\ time.Day t < 100
  /\ time.Hour t < 100 /\ time.Minute t < 100 /\ time.Second t < 100.

(** Two runs on identical inputs: everything but the scheduler and the
    clock is the same. *)
Definition sameInputs (w1 w2 : World) : Prop :=
  Args w1 = Args w2
  /\ (forall f, ReadFile w1 f = ReadFile w2 f)
  /\ (forall d, Unmarshal w1 d = Unmarshal w2 d)
  /\ cloud w1 = cloud w2
  /\ (forall f, Create w1 f = None) /\ (forall f, Create w2 f = None).

(** ** Sample data *)

Module sample.
Definition tag (k v : string) : types.Tag :=
  {| types.Key := Some k; types.Value := Some v |}.

Definition web1 : types.Instance :=
  {| types.InstanceId := Some "i-abc"; types.InstanceType := "t3.micro";
     types.Tags := [tag "env" "prod"; tag "Name" "web1"; tag "Name" "other"] |}.

Definition untagged : types.Instance :=
  {| types.InstanceId := Some "i-def"; types.InstanceType := "t3.small";
     types.Tags := [] |}.

Definition lowercase : types.Instance :=
  {| types.InstanceId := Some "i-low"; types.InstanceType := "m5.large";
     types.Tags := [tag "name" "ignored"] |}.

Definition db1 : types.Instance :=
  {| types.InstanceId := Some "i-db1"; types.InstanceType := "r5.large";
     types.Tags := [tag "Name" "db, primary"] |}.

(** A Name tag followed by a tag whose pointers are nil. *)
Definition trailingNil : types.Instance :=
  {| types.InstanceId := Some "i-nil"; types.InstanceType := "t3.nano";
     types.Tags := [tag "Name" "web"; {| types.Key := None; types.Value := None |}] |}.

Definition pageA : ec2.DescribeInstancesOutput :=
  {| ec2.Reservations :=
       [ {| types.Instances := [web1; untagged] |};
         {| types.Instances := [lowercase] |} ];
     ec2.NextToken := Some "more" |}.

Definition pageB : ec2.DescribeInstancesOutput :=
  {| ec2.Reservations := [ {| types.Instances := [db1] |} ];
     ec2.NextToken := None |}.

Definition roleA : string := "arn:aws:iam::111:role/A".
Definition roleB : string := "arn:aws:iam::222:role/B".
Definition roleC : string := "arn:aws:iam::333:role/C".

Definition cfg0 : aws.Config :=
  {| aws.Region := "ap-northeast-2"; aws.Credentials := None |}.

(** Account 111 and 222 answer, the query of 333 is rejected, and the
    configuration cannot be loaded for the task of account 444. *)
Definition cloud0 : Cloud :=
  {| LoadDefaultConfig := fun a =>
       if String.eqb a "444" then inl "no credential source" else inr cfg0;
     DescribeInstances := fun cfg _ =>
       match aws.Credentials cfg with
       | Some r =>
           if String.eqb r roleA then inr pageA
           else if String.eqb r roleB then inr pageB
           else inl "AccessDenied"
       | None => inl "no credentials"
       end |}.

Definition accountConfigs : list AccountConfig :=
  [ {| cfg_AccountID := "111"; cfg_RoleArn := "arn:aws:iam::111:role/old" |};
    {| cfg_AccountID := "222"; cfg_RoleArn := roleB |};
    {| cfg_AccountID := "333"; cfg_RoleArn := roleC |};
    {| cfg_AccountID := "111"; cfg_RoleArn := roleA |} ].

Definition clock (ticks : nat) : time.Time :=
  {| time.Year := 2024; time.Month := 1; time.Day := 15;
     time.Hour := 14; time.Minute := 30; time.Second := 25 + ticks |}.

Definition world (order : list (string * string) -> list (string * string))
  : World :=
  {| Args := ["collector"; "accounts.json"];
     ReadFile := fun _ => inr "[...]";
     Unmarshal := fun _ => inr accountConfigs;
     cloud := cloud0;
     arrival := fun accounts => order (map_to_list accounts);
     wallclock := clock;
     elapsed := 7;
     Create := fun _ => None |}.

Definition w1 : World := world id.
Definition w2 : World := world (@rev _).

Definition sentA : list EC2Instance :=
  [ {| AccountID := "111"; InstanceID := "i-abc";
       TagName := "web1"; InstanceType := "t3.micro" |};
    {| AccountID := "111"; InstanceID := "i-def";
       TagName := "-"; InstanceType := "t3.small" |};
    {| AccountID := "111"; InstanceID := "i-low";
       TagName := "-"; InstanceType := "m5.large" |} ].

Definition nilTagged : list types.Reservation :=
  [ {| types.Instances := [trailingNil] |} ].


Definition accounts : gmap string string := accountsOf accountConfigs.

Definition recordB : EC2Instance :=
  {| AccountID := "222"; InstanceID := "i-db1";
     TagName := "db, primary"; InstanceType := "r5.large" |}.

Definition records : list EC2Instance :=
  [ {| AccountID := "111"; InstanceID := "i-abc";
       TagName := "web1"; InstanceType := "t3.micro" |};
    recordB ].
End sample.

(** ** Further vocabulary and sample runs *)


(** A record under another account id. *)
Definition relabel (accountID : string) (r : EC2Instance) : EC2Instance :=
  {| AccountID := accountID; InstanceID := InstanceID r;
     TagName := TagName r; InstanceType := InstanceType r |}.

(** The number of line feeds of a string. *)
Fixpoint countLF (s : string) : nat :=
  match s with
  | EmptyString => 0
  | String c rest => (if Ascii.eqb c LF then 1 else 0) + countLF rest
  end.

(** The line feeds inside the fields of a record. *)
Definition fieldLFs (instance : EC2Instance) : nat :=
  countLF (AccountID instance) + countLF (InstanceID instance)
  + countLF (TagName instance) + countLF (InstanceType instance).

Module sample2.
(** The accounts file cannot be read. *)
Definition unreadable : World :=
  {| Args := Args sample.w1;
     ReadFile := fun _ => inl "open accounts.json: no such file or directory";
     Unmarshal := Unmarshal sample.w1;
     cloud := cloud sample.w1;
     arrival := arrival sample.w1;
     wallclock := wallclock sample.w1;
     elapsed := elapsed sample.w1;
     Create := Create sample.w1 |}.

(** The output file cannot be created. *)
Definition readonly : World :=
  {| Args := Args sample.w1;
     ReadFile := ReadFile sample.w1;
     Unmarshal := Unmarshal sample.w1;
     cloud := cloud sample.w1;
     arrival := arrival sample.w1;
     wallclock := wallclock sample.w1;
     elapsed := elapsed sample.w1;
     Create := fun _ => Some "permission denied" |}.

(** The accounts file holds the empty array. *)
Definition noAccounts : World :=
  {| Args := Args sample.w1;
     ReadFile := ReadFile sample.w1;
     Unmarshal := fun _ => inr [];
     cloud := cloud sample.w1;
     arrival := arrival sample.w1;
     wallclock := wallclock sample.w1;
     elapsed := elapsed sample.w1;
     Create := Create sample.w1 |}.




End sample2.

(** * Properties *)

(** ** Strings *)

Lemma append_assoc (a b c : string) : (a +:+ b) +:+ c = a +:+ (b +:+ c).
Proof. induction a as [|x a IH]; simpl; [reflexivity | now rewrite IH]. Qed.

Lemma append_nil_r (a : string) : a +:+ "" = a.
Proof. induction a as [|x a IH]; simpl; [reflexivity | now rewrite IH]. Qed.

Lemma length_append (a b : string) :
  String.length (a +:+ b) = String.length a + String.length b.
Proof. induction a as [|x a IH]; simpl; [reflexivity | now rewrite IH]. Qed.

(** ** The result monad *)

Ltac unbind := unfold mbind, result_bind, mret, result_ret in *.

Lemma bind_Ok {A B : Type} (f : A -> result B) (m : result A) (b : B) :
  (m ≫= f) = Ok b <-> exists a, m = Ok a /\ f a = Ok b.
Proof.
  unbind. destruct m as [a|]; split.
  - intros H. now exists a.
  - now intros (a' & [= ->] & H).
  - discriminate.
  - now intros (a' & H & _).
Qed.

Lemma traverse_app {A B : Type} (f : A -> result B) (l1 l2 : list A) :
  traverse f (l1 ++ l2)
  = (b1 ← traverse f l1; b2 ← traverse f l2; Ok (b1 ++ b2)).
Proof.
  induction l1 as [|a l1 IH]; simpl.
  - unbind. now destruct (traverse f l2).
  - unbind. destruct (f a); [|reflexivity]. rewrite IH.
    destruct (traverse f l1); [|reflexivity].
    now destruct (traverse f l2).
Qed.

Lemma traverse_Ok {A B : Type} (f : A -> result B) (l : list A) (bs : list B) :
  traverse f l = Ok bs <-> Forall2 (fun a b => f a = Ok b) l bs.
Proof.
  revert bs. induction l as [|a l IH]; intros bs; simpl.
  - split.
    + intros [= <-]. constructor.
    + intros H. now inversion H.
  - split.
    + intros H. apply bind_Ok in H as (b & Hb & H).
      apply bind_Ok in H as (bs' & Hbs & [= <-]).
      constructor; [assumption | now apply IH].
    + intros H. inversion H as [|? b ? bs' Hb Hbs]; subst.
      apply IH in Hbs. unbind. now rewrite Hb, Hbs.
Qed.

Lemma traverse_total {A B : Type} (f : A -> result B) (l : list A) :
  traverse f l <> Panic <-> forall a, a ∈ l -> f a <> Panic.
Proof.
  induction l as [|a l IH]; simpl.
  - split; [|discriminate]. intros _ a Ha. inversion Ha.
  - unbind. split.
    + intros H x Hx. apply elem_of_cons in Hx as [->|Hx].
      * intros E. now rewrite E in H.
      * destruct (f a); [|congruence].
        apply IH; [|assumption]. intros E. now rewrite E in H.
    + intros H. pose proof (H a (list_elem_of_here a l)) as Ha.
      destruct (f a); [|congruence].
      assert (traverse f l <> Panic) as Hl.
      { apply IH. intros x Hx. apply H. now apply list_elem_of_further. }
      now destruct (traverse f l).
Qed.

Lemma traverse_length {A B : Type} (f : A -> result B) (l : list A) (bs : list B) :
  traverse f l = Ok bs -> length bs = length l.
Proof.
  intros H. apply traverse_Ok in H. symmetry. eapply Forall2_length, H.
Qed.

(** ** The fetcher *)

Section Fetcher.
Variable accountID : string.

(** The two loops build the records of the instances, in order. *)
Lemma collectInstances_traverse (l : list types.Instance) (acc : list EC2Instance) :
  collectInstances accountID l acc
  = (rs ← traverse (toRecord accountID) l; Ok (acc ++ rs)).
Proof.
  revert acc. induction l as [|i l IH]; intros acc; simpl.
  - unbind. now rewrite List.app_nil_r.
  - unbind. destruct (toRecord accountID i) as [r|]; [|reflexivity].
    rewrite IH. unbind.
    destruct (traverse (toRecord accountID) l) as [rs|]; [|reflexivity].
    now rewrite <- List.app_assoc.
Qed.

Lemma collectReservations_traverse (rs : list types.Reservation)
    (acc : list EC2Instance) :
  collectReservations accountID rs acc
  = (recs ← traverse (toRecord accountID) (flatten rs); Ok (acc ++ recs)).
Proof.
  revert acc. induction rs as [|r rs IH]; intros acc; simpl.
  - unbind. now rewrite List.app_nil_r.
  - unfold flatten. simpl. rewrite traverse_app, collectInstances_traverse.
    unbind.
    destruct (traverse (toRecord accountID) (types.Instances r)) as [r1|];
      [|reflexivity].
    rewrite IH. unbind. unfold flatten.
    destruct (traverse (toRecord accountID) (concat (map types.Instances rs)));
      [|reflexivity].
    now rewrite List.app_assoc.
Qed.

Lemma toRecord_Ok (i : types.Instance) (r : EC2Instance) :
  toRecord accountID i = Ok r <->
  AccountID r = accountID
  /\ types.InstanceId i = Some (InstanceID r)
  /\ InstanceType r = types.InstanceType i
  /\ findTagName (types.Tags i) = Ok (TagName r).
Proof.
  unfold toRecord. unbind. destruct r as [a id n t]; simpl.
  destruct (types.InstanceId i) as [id'|]; simpl.
  - destruct (findTagName (types.Tags i)) as [n'|]; simpl.
    + split.
      * now intros [= <- <- <- <-].
      * now intros (-> & [= ->] & -> & [= ->]).
    + split; [discriminate | now intros (_ & _ & _ & ?)].
  - split; [discriminate | now intros (_ & ? & _)].
Qed.

Lemma toRecord_total (i : types.Instance) :
  toRecord accountID i <> Panic <->
  types.InstanceId i <> None /\ findTagName (types.Tags i) <> Panic.
Proof.
  unfold toRecord. unbind.
  destruct (types.InstanceId i); simpl;
    destruct (findTagName (types.Tags i)); simpl; intuition congruence.
Qed.
End Fetcher.

Lemma findTagName_first (tags : list types.Tag) (v : string) :
  findTagName tags = Ok v -> firstNameTag tags v.
Proof.
  induction tags as [|tag rest IH]; simpl.
  - intros [= <-]. apply name_absent. constructor.
  - unbind. destruct (types.Key tag) as [key|] eqn:Hk; simpl; [|discriminate].
    destruct (String.eqb_spec key "Name") as [->|Hne].
    + intros Hv. destruct (types.Value tag) as [v'|] eqn:Hval; simpl in Hv;
        [|discriminate].
      injection Hv as <-. now apply (name_first [] tag rest).
    + intros H. apply IH in H.
      assert (notName tag) as Htag by (unfold notName; congruence).
      inversion H as [? Hall|pre tag' post ? Hpre Hkey Hval]; subst.
      * apply name_absent. now constructor.
      * apply (name_first (tag :: pre) tag' post); [now constructor|assumption..].
Qed.

Lemma findTagName_total (tags : list types.Tag) :
  findTagName tags <> Panic <-> tagsDerefOk tags.
Proof.
  induction tags as [|tag rest IH]; simpl.
  - split; [|discriminate].
    intros _ t (pre & post & E & _). now destruct pre.
  - unbind. split.
    + intros H t (pre & post & E & Hpre).
      destruct (types.Key tag) as [key|] eqn:Hk; simpl in H; [|congruence].
      destruct pre as [|p pre]; simpl in E; injection E as <- E.
      * rewrite Hk. split; [discriminate|].
        intros [= ->]. simpl in H. intros Hv. now rewrite Hv in H.
      * apply Forall_cons in Hpre as [Hp Hpre].
        destruct (String.eqb_spec key "Name") as [->|Hne];
          [now elim Hp|].
        apply IH in H. apply H. now exists pre, post.
    + intros H.
      destruct (H tag) as [Hk Hv]; [now exists [], rest|].
      destruct (types.Key tag) as [key|] eqn:E; simpl; [|congruence].
      destruct (String.eqb_spec key "Name") as [->|Hne].
      * specialize (Hv eq_refl). now destruct (types.Value tag).
      * apply IH. intros t (pre & post & -> & Hpre).
        apply H. exists (tag :: pre), post. split; [reflexivity|].
        constructor; [|assumption]. unfold notName. congruence.
Qed.

Lemma allPointersSet_derefOk (rs : list types.Reservation) :
  allPointersSet rs -> derefOk rs.
Proof.
  intros H i Hi. unfold allPointersSet in H. rewrite Forall_forall in H.
  destruct (H i Hi) as [Hid Htags]. split; [assumption|].
  intros t (pre & post & E & _). rewrite Forall_forall in Htags.
  destruct (Htags t) as [Hk Hv].
  { rewrite E. apply elem_of_app. right. apply list_elem_of_here. }
  now split.
Qed.

Lemma collectReservations_total (accountID : string) (rs : list types.Reservation) :
  collectReservations accountID rs [] <> Panic <-> derefOk rs.
Proof.
  rewrite collectReservations_traverse.
  assert (traverse (toRecord accountID) (flatten rs) <> Panic <-> derefOk rs) as <-.
  { rewrite traverse_total. unfold derefOk. split; intros H i Hi.
    - specialize (H i Hi). apply toRecord_total in H as [? ?].
      split; [assumption | now apply findTagName_total].
    - apply toRecord_total. destruct (H i Hi) as [? ?].
      split; [assumption | now apply findTagName_total]. }
  unbind. now destruct (traverse (toRecord accountID) (flatten rs)).
Qed.

(** What a task that does not panic sends: the records of the first
    page, instance by instance. *)
Lemma getEC2Instances_sent (cloud : Cloud) (accountID roleArn : string)
    (instances : list EC2Instance) :
  sent (getEC2Instances cloud accountID roleArn) = Ok instances ->
  Forall2 (fun i r => toRecord accountID i = Ok r)
          (firstPage cloud accountID roleArn) instances.
Proof.
  unfold getEC2Instances, firstPage.
  destruct (LoadDefaultConfig cloud accountID) as [err|cfg].
  - intros [= <-]. constructor.
  - destruct (DescribeInstances cloud (assumeRole cfg roleArn) emptyInput)
      as [err|result].
    + intros [= <-]. constructor.
    + rewrite collectReservations_traverse. unbind.
      destruct (traverse (toRecord accountID) (flatten (ec2.Reservations result)))
        as [recs|] eqn:E; simpl; [|discriminate].
      intros [= <-]. now apply traverse_Ok.
Qed.

Lemma firstName_split (pre1 pre2 post1 post2 : list types.Tag) (t1 t2 : types.Tag) :
  Forall notName pre1 -> Forall notName pre2 ->
  ~ notName t1 -> ~ notName t2 ->
  pre1 ++ t1 :: post1 = pre2 ++ t2 :: post2 -> t1 = t2.
Proof.
  revert pre2. induction pre1 as [|p pre1 IH]; intros [|q pre2] H1 H2 N1 N2 E;
    simpl in E; injection E as E1 E2.
  - assumption.
  - subst q. apply Forall_cons in H2 as [? _]. contradiction.
  - subst p. apply Forall_cons in H1 as [? _]. contradiction.
  - apply Forall_cons in H1 as [_ H1]. apply Forall_cons in H2 as [_ H2].
    now apply (IH pre2).
Qed.

(** The tag name the specification speaks of is unique. *)
Lemma firstNameTag_unique (tags : list types.Tag) (v1 v2 : string) :
  firstNameTag tags v1 -> firstNameTag tags v2 -> v1 = v2.
Proof.
  assert (forall t : types.Tag, types.Key t = Some "Name" -> ~ notName t) as Hn.
  { intros t Ht Hnot. now apply Hnot. }
  intros H1 H2.
  inversion H1 as [? A1|pre1 t1 post1 ? P1 K1 V1];
    inversion H2 as [? A2|pre2 t2 post2 ? P2 K2 V2]; subst.
  - reflexivity.
  - apply Forall_app in A1 as [_ A1]. apply Forall_cons in A1 as [A1 _].
    now elim (Hn t2).
  - apply Forall_app in A2 as [_ A2]. apply Forall_cons in A2 as [A2 _].
    now elim (Hn t1).
  - match goal with E : _ ++ _ :: _ = _ ++ _ :: _ |- _ =>
      apply firstName_split in E; auto end.
    subst t2. congruence.
Qed.

(** C1: every record a task produces carries, as its tag name, the value
    of the first tag of its instance whose key is exactly "Name"
    (compared byte for byte), and "-" when the instance has no such tag,
    in particular when it has no tags at all. *)
Theorem C1_tag_name_is_first_Name_tag (cloud : Cloud) (accountID roleArn : string)
    (instances : list EC2Instance) :
  sent (getEC2Instances cloud accountID roleArn) = Ok instances ->
  Forall2 (fun i r =>
             firstNameTag (types.Tags i) (TagName r)
             /\ (types.Tags i = [] -> TagName r = "-"))
          (firstPage cloud accountID roleArn) instances.
Proof.
  intros H. apply getEC2Instances_sent in H.
  eapply Forall2_impl; [exact H|].
  intros i r Hr. apply toRecord_Ok in Hr as (_ & _ & _ & Hn). split.
  - now apply findTagName_first.
  - intros E. rewrite E in Hn. simpl in Hn. now injection Hn as <-.
Qed.

Lemma C1_witness :
  sent (getEC2Instances sample.cloud0 "111" sample.roleA) = Ok sample.sentA
  /\ Forall2 (fun i r =>
                firstNameTag (types.Tags i) (TagName r)
                /\ (types.Tags i = [] -> TagName r = "-"))
             (firstPage sample.cloud0 "111" sample.roleA) sample.sentA.
Proof.
  split; [reflexivity|].
  apply (C1_tag_name_is_first_Name_tag sample.cloud0 "111" sample.roleA).
  reflexivity.
Defined.

(** The comparison is case-sensitive: a tag keyed "name" is not the Name
    tag. *)
Example findTagName_case_sensitive :
  findTagName [sample.tag "name" "ignored"; sample.tag "NAME" "too"] = Ok "-".
Proof. reflexivity. Qed.

(** C10, as the code has it: the scan stops at the first Name tag and
    reads a value only there, so record construction is panic-free exactly
    when every instance has an identifier, every tag up to and including
    the first Name tag has a key, and that Name tag has a value.  It is
    therefore panic-free, with one record per instance, whenever every
    identifier, key and value pointer is set. *)
Theorem C10_record_construction_total (accountID : string)
    (rs : list types.Reservation) :
  (collectReservations accountID rs [] <> Panic <-> derefOk rs)
  /\ (allPointersSet rs ->
      exists instances,
        collectReservations accountID rs [] = Ok instances
        /\ length instances = length (flatten rs)).
Proof.
  split; [apply collectReservations_total|].
  intros H. apply allPointersSet_derefOk in H.
  apply (collectReservations_total accountID) in H.
  rewrite collectReservations_traverse in *.
  destruct (traverse (toRecord accountID) (flatten rs)) as [recs|] eqn:E;
    unbind; [|congruence].
  exists recs. split; [reflexivity|]. now apply traverse_length in E.
Qed.

Lemma C10_witness :
  allPointersSet (ec2.Reservations sample.pageA)
  /\ exists instances,
       collectReservations "111" (ec2.Reservations sample.pageA) [] = Ok instances
       /\ length instances = length (flatten (ec2.Reservations sample.pageA)).
Proof.
  assert (allPointersSet (ec2.Reservations sample.pageA)) as H.
  { unfold allPointersSet. simpl.
    repeat (constructor; simpl; try discriminate). }
  split; [exact H|].
  exact (proj2 (C10_record_construction_total "111" (ec2.Reservations sample.pageA)) H).
Defined.

(** A response with a nil key and a nil value after the Name tag is
    converted without a panic: the precondition is not necessary. *)
Lemma C10_counterexample :
  collectReservations "111" sample.nilTagged []
  = Ok [ {| AccountID := "111"; InstanceID := "i-nil";
            TagName := "web"; InstanceType := "t3.nano" |} ]
  /\ ~ allPointersSet sample.nilTagged.
Proof.
  split; [reflexivity|].
  unfold allPointersSet. simpl. intros H.
  apply Forall_cons in H as [[_ H] _]. simpl in H.
  apply Forall_cons in H as [_ H]. apply Forall_cons in H as [[H _] _].
  now apply H.
Qed.



(** ** The CSV writer *)

Lemma writeFields_ext (w w' : csv.Writer) (n : nat) (record : list string) :
  csv.Comma w = csv.Comma w' -> csv.UseCRLF w = csv.UseCRLF w' ->
  csv.writeFields w n record = csv.writeFields w' n record.
Proof.
  intros Hc Hu. revert n. induction record as [|field rest IH]; intros n; simpl.
  - reflexivity.
  - rewrite IH. unfold csv.writeField, csv.fieldNeedsQuotes.
    now rewrite Hc, Hu.
Qed.

Lemma Write_comma (o : string) (record : list string) :
  csv.Write {| csv.Comma := COMMA; csv.UseCRLF := false; csv.out := o |} record
  = inr {| csv.Comma := COMMA; csv.UseCRLF := false;
           csv.out := o +:+ csvLine record |}.
Proof.
  unfold csv.Write, csvLine. simpl.
  now rewrite (writeFields_ext _ csv.NewWriter).
Qed.

Lemma writeRecords_comma (o : string) (instances : list EC2Instance) :
  writeRecords {| csv.Comma := COMMA; csv.UseCRLF := false; csv.out := o |} instances
  = (None, {| csv.Comma := COMMA; csv.UseCRLF := false;
              csv.out := o +:+ csvLines instances |}).
Proof.
  revert o. induction instances as [|i rest IH]; intros o;
    unfold csvLines; cbn [writeRecords foldr].
  - now rewrite append_nil_r.
  - fold (csvLines rest). rewrite Write_comma, IH. now rewrite append_assoc.
Qed.

Lemma csvText_rows (instances : list EC2Instance) :
  csvText instances = foldr (fun row s => csvLine row +:+ s) "" (csvRows instances).
Proof.
  unfold csvText, csvRows, csvLines. cbn [foldr]. f_equal.
  induction instances as [|i l IH]; [reflexivity|].
  cbn [foldr map]. now rewrite IH.
Qed.

Lemma writeCSV_created (create : string -> option error) (filename : string)
    (instances : list EC2Instance) :
  create filename = None ->
  writeCSV create filename instances = (None, Some (csvText instances)).
Proof.
  intros H. unfold writeCSV. rewrite H. cbv zeta.
  change csv.NewWriter
    with {| csv.Comma := COMMA; csv.UseCRLF := false; csv.out := "" |}.
  rewrite Write_comma, writeRecords_comma. reflexivity.
Qed.

(** ** The run *)

Lemma drain_concat (results : list (list EC2Instance)) :
  drain results = concat results.
Proof.
  unfold drain.
  assert (forall acc, foldl (fun a i => a ++ i) acc results = acc ++ concat results)
    as H.
  { induction results as [|r results IH]; intros acc; simpl.
    - now rewrite List.app_nil_r.
    - now rewrite IH, List.app_assoc. }
  apply H.
Qed.

Section Run.
Variable w : World.
Variables (prog inputFile : string) (rest : list string).
Variable accounts : gmap string string.
Hypothesis Hargs : Args w = prog :: inputFile :: rest.
Hypothesis Hload : loadAccountsFromFile w inputFile = inr accounts.

Lemma main_crashed :
  traverse sent (fanOut (cloud w) (arrival w accounts)) = Panic ->
  status (main w) = Crashed.
Proof. intros H. unfold main. now rewrite Hargs, Hload, H. Qed.

Lemma main_received (results : list (list EC2Instance)) :
  traverse sent (fanOut (cloud w) (arrival w accounts)) = Ok results ->
  allInstances_of (main w) = concat results
  /\ (Create w (outputFile w) = None ->
      status (main w) = Exited 0
      /\ file (main w) = Some (outputFile w, csvText (concat results))
      /\ stdout (main w)
         = report (concat results) +:+ nl +:+ "✓ CSV 파일 저장 완료: "
           +:+ outputFile w +:+ nl).
Proof.
  intros H. unfold main. rewrite Hargs, Hload, H, drain_concat.
  fold (outputFile w). split.
  - now destruct (writeCSV (Create w) (outputFile w) (concat results))
      as [[err|] content].
  - intros Hc. now rewrite (writeCSV_created _ _ _ Hc).
Qed.

Lemma main_not_crashed :
  status (main w) <> Crashed ->
  exists results,
    traverse sent (fanOut (cloud w) (arrival w accounts)) = Ok results.
Proof.
  intros H.
  destruct (traverse sent (fanOut (cloud w) (arrival w accounts)))
    as [results|] eqn:E; [now exists results|].
  now apply main_crashed in E.
Qed.

(** Every received record was built by the task of one entry of the
    map, from an instance of that task's first page. *)
Lemma received_origin (results : list (list EC2Instance)) (r : EC2Instance) :
  fair w ->
  traverse sent (fanOut (cloud w) (arrival w accounts)) = Ok results ->
  r ∈ concat results ->
  exists roleArn instances,
    accounts !! AccountID r = Some roleArn
    /\ sent (getEC2Instances (cloud w) (AccountID r) roleArn) = Ok instances
    /\ r ∈ instances.
Proof.
  intros Hfair H Hr.
  assert (forall tasks results,
            traverse sent (fanOut (cloud w) tasks) = Ok results ->
            r ∈ concat results ->
            exists a roleArn instances,
              (a, roleArn) ∈ tasks
              /\ sent (getEC2Instances (cloud w) a roleArn) = Ok instances
              /\ r ∈ instances) as Horigin.
  { clear. induction tasks as [|[a role] tasks IH]; intros results H Hr; simpl in H.
    - injection H as <-. inversion Hr.
    - apply bind_Ok in H as (instances & Hi & H).
      apply bind_Ok in H as (results' & Hrest & [= <-]).
      simpl in Hr. apply elem_of_app in Hr as [Hr|Hr].
      + exists a, role, instances. split; [apply list_elem_of_here | now split].
      + destruct (IH _ Hrest Hr) as (a' & role' & instances' & ? & ? & ?).
        exists a', role', instances'. split; [now apply list_elem_of_further | now split]. }
  destruct (Horigin _ _ H Hr) as (a & roleArn & instances & Hin & Hsent & Hri).
  assert (AccountID r = a) as ->.
  { pose proof (getEC2Instances_sent _ _ _ _ Hsent) as Hall.
    apply list_elem_of_lookup in Hri as [k Hk].
    destruct (Forall2_lookup_r _ _ _ _ _ Hall Hk) as (i & _ & Hrec).
    now apply toRecord_Ok in Hrec as (? & _). }
  exists roleArn, instances. split; [|now split].
  rewrite (Hfair accounts) in Hin. now apply elem_of_map_to_list in Hin.
Qed.
End Run.

Lemma fetchFails_sent (cloud : Cloud) (accountID roleArn : string) :
  fetchFails cloud accountID roleArn ->
  sent (getEC2Instances cloud accountID roleArn) = Ok [].
Proof.
  unfold getEC2Instances. intros [err H|cfg err H1 H2].
  - now rewrite H.
  - now rewrite H1, H2.
Qed.

(** ** Reading back what the writer wrote *)

Section RoundTrip.
Import reader.

Lemma snoc_append (f : string) (c : ascii) (g : string) :
  snoc f c +:+ g = f +:+ String c g.
Proof. unfold snoc. now rewrite append_assoc. Qed.

Lemma parse_quoted_body (g f : string) (record : list string)
    (records : list (list string)) (rest : string) :
  parse Quoted f record records (csv.escape false g +:+ rest)
  = parse Quoted (f +:+ g) record records rest.
Proof.
  revert f. induction g as [|c g IH]; intros f.
  - simpl. now rewrite append_nil_r.
  - cbn [csv.escape].
    destruct (Ascii.eqb_spec c DQUOTE) as [->|Hq].
    + cbn [String.append parse]. rewrite Ascii.eqb_refl.
      rewrite IH. now rewrite snoc_append.
    + assert (parse Quoted f record records (String c (csv.escape false g +:+ rest))
              = parse Quoted (f +:+ String c g) record records rest) as Hstep.
      { cbn [parse]. apply Ascii.eqb_neq in Hq. rewrite Hq.
        rewrite IH. now rewrite snoc_append. }
      destruct (Ascii.eqb_spec c CR) as [->|_]; [exact Hstep|].
      destruct (Ascii.eqb_spec c LF) as [->|_]; exact Hstep.
Qed.

Lemma hasSpecial_cons (c : ascii) (g : string) :
  csv.hasSpecial COMMA (String c g) = false ->
  Ascii.eqb c LF = false /\ Ascii.eqb c DQUOTE = false
  /\ Ascii.eqb c COMMA = false /\ csv.hasSpecial COMMA g = false.
Proof.
  cbn [csv.hasSpecial]. intros H.
  apply orb_false_iff in H as [H Hrest]. apply orb_false_iff in H as [H Hc].
  apply orb_false_iff in H as [H Hq]. apply orb_false_iff in H as [Hlf _].
  auto.
Qed.

Lemma parse_bare_body (g f : string) (record : list string)
    (records : list (list string)) (rest : string) :
  csv.hasSpecial COMMA g = false ->
  parse Bare f record records (g +:+ rest)
  = parse Bare (f +:+ g) record records rest.
Proof.
  revert f. induction g as [|c g IH]; intros f H.
  - simpl. now rewrite append_nil_r.
  - apply hasSpecial_cons in H as (Hlf & Hq & Hc & H).
    cbn [String.append parse]. rewrite Hq, Hc, Hlf.
    rewrite (IH _ H). now rewrite snoc_append.
Qed.

Lemma needsQuotes_false (f : string) :
  csv.fieldNeedsQuotes csv.NewWriter f = false ->
  csv.hasSpecial COMMA f = false.
Proof.
  unfold csv.fieldNeedsQuotes.
  destruct (String.eqb_spec f "") as [->|_]; [reflexivity|].
  destruct (String.eqb f "\."); [discriminate|].
  change (csv.Comma csv.NewWriter) with COMMA.
  now destruct (csv.hasSpecial COMMA f).
Qed.

(** After the bytes of a field the reader holds that field. *)
Lemma parse_field (f : string) (record : list string)
    (records : list (list string)) (rest : string) :
  exists st, fieldRead st f
    /\ parse FieldStart "" record records (csv.writeField csv.NewWriter f +:+ rest)
       = parse st f record records rest.
Proof.
  unfold csv.writeField.
  destruct (csv.fieldNeedsQuotes csv.NewWriter f) eqn:E.
  - exists QuoteSeen. split; [constructor|].
    change (csv.UseCRLF csv.NewWriter) with false.
    cbn [String.append parse]. rewrite Ascii.eqb_refl.
    rewrite append_assoc, parse_quoted_body.
    cbn [String.append parse]. now rewrite Ascii.eqb_refl.
  - apply needsQuotes_false in E. destruct f as [|c g].
    + exists FieldStart. split; [constructor | reflexivity].
    + exists Bare. split; [constructor|].
      apply hasSpecial_cons in E as (Hlf & Hq & Hc & H).
      cbn [String.append parse]. rewrite Hq, Hc, Hlf.
      now rewrite (parse_bare_body _ _ _ _ _ H).
Qed.

Lemma parse_comma (st : state) (f : string) (record : list string)
    (records : list (list string)) (rest : string) :
  fieldRead st f ->
  parse st f record records (String COMMA rest)
  = parse FieldStart "" (record ++ [f]) records rest.
Proof. intros []; reflexivity. Qed.

Lemma parse_LF (st : state) (f : string) (record : list string)
    (records : list (list string)) (rest : string) :
  fieldRead st f -> record <> [] ->
  parse st f record records (String LF rest)
  = parse FieldStart "" [] (records ++ [record ++ [f]]) rest.
Proof. intros [] H; try reflexivity. now destruct record. Qed.

Lemma csvLine_tail (f : string) (fs : list string) :
  csvLine (f :: fs) = csv.writeField csv.NewWriter f +:+ csvTail fs.
Proof.
  assert (forall n, csv.writeFields csv.NewWriter (S n) fs +:+ nl = csvTail fs) as H.
  { induction fs as [|g fs IH]; intros n; [reflexivity|].
    cbn [csv.writeFields csvTail]. rewrite <- (IH (S n)).
    change (Nat.ltb 0 (S n)) with true. cbv iota.
    change (csv.Comma csv.NewWriter) with COMMA.
    cbn [String.append]. now rewrite append_assoc. }
  unfold csvLine. cbn [csv.writeFields]. change (Nat.ltb 0 0) with false.
  cbv iota. cbn [String.append]. now rewrite append_assoc, H.
Qed.

(** A line is read back as the record it was written from. *)
Lemma parse_line (fs : list string) (f : string) (record : list string)
    (records : list (list string)) (rest : string) :
  record <> [] \/ fs <> [] ->
  parse FieldStart "" record records
        (csv.writeField csv.NewWriter f +:+ csvTail fs +:+ rest)
  = parse FieldStart "" [] (records ++ [record ++ f :: fs]) rest.
Proof.
  revert f record. induction fs as [|g fs IH]; intros f record H.
  - destruct H as [H|H]; [|congruence].
    destruct (parse_field f record records (csvTail [] +:+ rest))
      as (st & Hst & ->).
    cbn [csvTail]. unfold nl. cbn [String.append].
    now apply parse_LF.
  - destruct (parse_field f record records (csvTail (g :: fs) +:+ rest))
      as (st & Hst & ->).
    cbn [csvTail String.append]. rewrite (parse_comma _ _ _ _ _ Hst).
    rewrite append_assoc, IH.
    + now rewrite <- List.app_assoc.
    + left. now destruct record.
Qed.

Lemma parse_lines (instances : list EC2Instance)
    (records : list (list string)) (rest : string) :
  parse FieldStart "" [] records (csvLines instances +:+ rest)
  = parse FieldStart "" [] (records ++ map toRow instances) rest.
Proof.
  revert records. induction instances as [|i l IH]; intros records.
  - simpl. now rewrite List.app_nil_r.
  - unfold csvLines. cbn [foldr map]. fold (csvLines l).
    unfold toRow at 1. rewrite csvLine_tail.
    rewrite !append_assoc, parse_line; [|right; discriminate].
    rewrite IH. now rewrite <- List.app_assoc.
Qed.

(** The rows of a written file: the header, then the records in order. *)
Lemma ReadAll_csvText (instances : list EC2Instance) :
  ReadAll (csvText instances) = Some (header :: map toRow instances).
Proof.
  unfold ReadAll, csvText.
  rewrite <- (append_nil_r (csvLines instances)).
  unfold header at 1. rewrite csvLine_tail.
  rewrite !append_assoc, parse_line; [|right; discriminate].
  now rewrite parse_lines.
Qed.

Lemma records_csvText (instances : list EC2Instance) :
  reader.records (csvText instances) = Some instances.
Proof.
  unfold reader.records. rewrite ReadAll_csvText.
  change (mapM fromRow (map toRow instances) = Some instances).
  apply mapM_Some. induction instances as [|[a i n t] l IH]; simpl.
  - constructor.
  - constructor; [reflexivity | exact IH].
Qed.
End RoundTrip.

(** ** Decimal rendering *)

Lemma digit_value (d : nat) :
  d < 10 -> nat_of_ascii (ascii_of_nat (48 + d)) - 48 = d.
Proof. intros H. rewrite nat_ascii_embedding; lia. Qed.

Lemma digit_isDigit (d : nat) : d < 10 -> isDigit (ascii_of_nat (48 + d)) = true.
Proof.
  intros H. unfold isDigit. rewrite nat_ascii_embedding by lia.
  apply andb_true_iff. split; apply Nat.leb_le; lia.
Qed.

Lemma itoa_aux_value (fuel n : nat) (acc : string) :
  n < fuel -> atoi_from 0 (itoa_aux fuel n acc) = atoi_from n acc.
Proof.
  revert n acc. induction fuel as [|fuel IH]; intros n acc H; [lia|].
  cbn [itoa_aux].
  assert (n mod 10 < 10) as Hd by (apply Nat.mod_upper_bound; lia).
  destruct (Nat.ltb_spec n 10) as [Hn|Hn].
  - cbn [atoi_from]. rewrite digit_value by assumption.
    rewrite Nat.mod_small by assumption. f_equal.
  - assert (n / 10 < n) by (apply Nat.div_lt; lia).
    rewrite IH by lia. cbn [atoi_from]. rewrite digit_value by assumption.
    f_equal. pose proof (Nat.div_mod_eq n 10). lia.
Qed.

(** [itoa] writes the decimal digits of its argument. *)
Lemma atoi_itoa (n : nat) : atoi (itoa n) = n.
Proof. unfold atoi, itoa. now rewrite itoa_aux_value by lia. Qed.

Lemma itoa_aux_digits (fuel n : nat) (acc : string) :
  allDigits acc = true -> allDigits (itoa_aux fuel n acc) = true.
Proof.
  revert n acc. induction fuel as [|fuel IH]; intros n acc H; [assumption|].
  cbn [itoa_aux].
  assert (allDigits (String (ascii_of_nat (48 + n mod 10)) acc) = true) as H'.
  { cbn [allDigits]. rewrite digit_isDigit, H; [reflexivity|].
    apply Nat.mod_upper_bound. lia. }
  destruct (Nat.ltb n 10); [assumption | now apply IH].
Qed.

Lemma atoi_from_zeros (k : nat) (s : string) :
  atoi_from 0 (strings.Repeat "0" k +:+ s) = atoi_from 0 s.
Proof. induction k as [|k IH]; [reflexivity | exact IH]. Qed.

Lemma allDigits_append (a b : string) :
  allDigits (a +:+ b) = allDigits a && allDigits b.
Proof.
  induction a as [|c a IH]; [reflexivity|].
  cbn [String.append allDigits]. now rewrite IH, andb_assoc.
Qed.

Lemma allDigits_zeros (k : nat) : allDigits (strings.Repeat "0" k) = true.
Proof. induction k as [|k IH]; [reflexivity | exact IH]. Qed.

Lemma appendInt_value (x width : nat) : atoi (time.appendInt x width) = x.
Proof.
  unfold atoi, time.appendInt. rewrite atoi_from_zeros. apply atoi_itoa.
Qed.

Lemma appendInt_digits (x width : nat) : allDigits (time.appendInt x width) = true.
Proof.
  unfold time.appendInt. rewrite allDigits_append, allDigits_zeros.
  unfold itoa. now apply itoa_aux_digits.
Qed.

Lemma length_Repeat (c : ascii) (k : nat) :
  String.length (strings.Repeat (String c "") k) = k.
Proof. induction k as [|k IH]; [reflexivity | simpl; now rewrite IH]. Qed.

Lemma appendInt_length (x width : nat) :
  String.length (itoa x) <= width ->
  String.length (time.appendInt x width) = width.
Proof.
  intros H. unfold time.appendInt.
  rewrite length_append, (length_Repeat "0"). lia.
Qed.

Lemma itoa_length_2 (x : nat) : x < 100 -> String.length (itoa x) <= 2.
Proof.
  intros H.
  assert (forallb (fun x => Nat.leb (String.length (itoa x)) 2) (seq 0 100) = true)
    as Hall by (vm_compute; reflexivity).
  rewrite forallb_forall in Hall. apply Nat.leb_le, Hall, in_seq. lia.
Qed.

Lemma itoa_length_4 (x : nat) : x < 100 * 100 -> String.length (itoa x) <= 4.
Proof.
  intros H.
  assert (forallb (fun x => Nat.leb (String.length (itoa x)) 4) (seq 0 (100 * 100))
          = true) as Hall by (vm_compute; reflexivity).
  rewrite forallb_forall in Hall. apply Nat.leb_le, Hall, in_seq. lia.
Qed.

(** ** Runs that end well *)

Lemma main_exit0 (w : World) :
  status (main w) = Exited 0 ->
  exists prog inputFile rest accounts results,
    Args w = prog :: inputFile :: rest
    /\ loadAccountsFromFile w inputFile = inr accounts
    /\ traverse sent (fanOut (cloud w) (arrival w accounts)) = Ok results
    /\ Create w (outputFile w) = None.
Proof.
  unfold main.
  destruct (Args w) as [|prog [|inputFile rest]]; [discriminate..|].
  destruct (loadAccountsFromFile w inputFile) as [err|accounts] eqn:Hload;
    [discriminate|].
  destruct (traverse sent (fanOut (cloud w) (arrival w accounts)))
    as [results|] eqn:E; [|discriminate].
  fold (outputFile w). intros H.
  exists prog, inputFile, rest, accounts, results.
  split; [reflexivity|]. split; [assumption|]. split; [assumption|].
  unfold writeCSV in H.
  destruct (Create w (outputFile w)); [discriminate | reflexivity].
Qed.

(** The merged list of a run that got past the barrier is made of the
    slices of the tasks; a run that did not has none. *)
Lemma main_allInstances (w : World) (r : EC2Instance) :
  r ∈ allInstances_of (main w) ->
  exists prog inputFile rest accounts results,
    Args w = prog :: inputFile :: rest
    /\ loadAccountsFromFile w inputFile = inr accounts
    /\ traverse sent (fanOut (cloud w) (arrival w accounts)) = Ok results
    /\ allInstances_of (main w) = concat results.
Proof.
  intros Hr.
  destruct (Args w) as [|prog [|inputFile rest]] eqn:Hargs;
    try (unfold main in Hr; rewrite Hargs in Hr; now inversion Hr).
  destruct (loadAccountsFromFile w inputFile) as [err|accounts] eqn:Hload;
    try (unfold main in Hr; rewrite Hargs, Hload in Hr; now inversion Hr).
  destruct (traverse sent (fanOut (cloud w) (arrival w accounts)))
    as [results|] eqn:E;
    try (unfold main in Hr; rewrite Hargs, Hload, E in Hr; now inversion Hr).
  exists prog, inputFile, rest, accounts, results.
  split; [reflexivity|]. split; [assumption|]. split; [assumption|].
  now apply (main_received w prog inputFile rest accounts Hargs Hload).
Qed.

(** Delivery in another order permutes the merged list. *)
Lemma fanOut_Permutation (cloud : Cloud) (tasks1 tasks2 : list (string * string))
    (results1 : list (list EC2Instance)) :
  tasks1 ≡ₚ tasks2 ->
  traverse sent (fanOut cloud tasks1) = Ok results1 ->
  exists results2,
    traverse sent (fanOut cloud tasks2) = Ok results2
    /\ concat results1 ≡ₚ concat results2.
Proof.
  intros Hperm. revert results1.
  induction Hperm as [|t l1 l2 Hperm IH|t1 t2 l|l1 l2 l3 H12 IH12 H23 IH23];
    intros results1 H.
  - exists results1. now split.
  - cbn [fanOut map traverse] in *. apply bind_Ok in H as (i & Hi & H).
    apply bind_Ok in H as (rs & Hrs & [= <-]).
    destruct (IH _ Hrs) as (rs2 & Hrs2 & Hp).
    exists (i :: rs2). split.
    + unbind. fold (fanOut cloud l2). now rewrite Hi, Hrs2.
    + simpl. now rewrite Hp.
  - cbn [fanOut map traverse] in *. apply bind_Ok in H as (i2 & Hi2 & H).
    apply bind_Ok in H as (rs' & H & [= <-]).
    apply bind_Ok in H as (i1 & Hi1 & H).
    apply bind_Ok in H as (rs & Hrs & [= <-]).
    exists (i1 :: i2 :: rs). split.
    + unbind. now rewrite Hi1, Hi2, Hrs.
    + simpl. rewrite !List.app_assoc. apply Permutation_app_tail, Permutation_app_comm.
  - destruct (IH12 _ H) as (rs2 & H2 & Hp2).
    destruct (IH23 _ H2) as (rs3 & H3 & Hp3).
    exists rs3. split; [assumption | now rewrite Hp2].
Qed.

(** ** The account map *)

Lemma accountsOf_snoc (l : list AccountConfig) (c : AccountConfig) :
  accountsOf (l ++ [c]) = <[cfg_AccountID c := cfg_RoleArn c]> (accountsOf l).
Proof. unfold accountsOf. now rewrite foldl_app. Qed.


Lemma accountsOf_dom (l : list AccountConfig) (a : string) :
  is_Some (accountsOf l !! a) <-> a ∈ map cfg_AccountID l.
Proof.
  induction l as [|c l IH] using rev_ind.
  - unfold accountsOf. simpl. rewrite lookup_empty. split.
    + intros [? ?]. discriminate.
    + intros H. inversion H.
  - rewrite accountsOf_snoc, map_app, elem_of_app. simpl.
    destruct (decide (cfg_AccountID c = a)) as [<-|Hne].
    + rewrite lookup_insert_eq. split; [|eauto].
      intros _. right. apply list_elem_of_here.
    + rewrite lookup_insert_ne by assumption. rewrite IH. split; [auto|].
      intros [H|H]; [assumption|].
      apply elem_of_cons in H as [->|H]; [congruence | inversion H].
Qed.

(** ** The claims about the run *)

(** C2: a task whose configuration loading or inventory query returns an
    error logs that error and sends an empty slice; no record of the
    merged list belongs to that account, and unless some other task
    panics or the output file cannot be created the run exits with status
    0 and has written the CSV file of the merged list. *)
Theorem C2_fetch_errors_are_swallowed (w : World) (prog inputFile : string)
    (rest : list string) (accounts : gmap string string)
    (accountID roleArn : string) :
  Args w = prog :: inputFile :: rest ->
  loadAccountsFromFile w inputFile = inr accounts ->
  fair w ->
  accounts !! accountID = Some roleArn ->
  fetchFails (cloud w) accountID roleArn ->
  sent (getEC2Instances (cloud w) accountID roleArn) = Ok []
  /\ (exists err,
        (LoadDefaultConfig (cloud w) accountID = inl err
         /\ logged (getEC2Instances (cloud w) accountID roleArn)
            = ["[" +:+ accountID +:+ "] AWS 설정 로드 실패: " +:+ err])
        \/ (exists cfg,
              LoadDefaultConfig (cloud w) accountID = inr cfg
              /\ DescribeInstances (cloud w) (assumeRole cfg roleArn) emptyInput
                 = inl err
              /\ logged (getEC2Instances (cloud w) accountID roleArn)
                 = ["[" +:+ accountID +:+ "] EC2 인스턴스 조회 실패: " +:+ err]))
  /\ (forall r, r ∈ allInstances_of (main w) -> AccountID r <> accountID)
  /\ (status (main w) <> Crashed ->
      Create w (outputFile w) = None ->
      status (main w) = Exited 0
      /\ file (main w) = Some (outputFile w, csvText (allInstances_of (main w)))).
Proof.
  intros Hargs Hload Hfair Hacc Hfail.
  pose proof (fetchFails_sent _ _ _ Hfail) as Hsent.
  split; [assumption|]. split; [|split].
  - unfold getEC2Instances. destruct Hfail as [err H|cfg err H1 H2].
    + exists err. left. now rewrite H.
    + exists err. right. exists cfg. now rewrite H1, H2.
  - intros r Hr E.
    destruct (traverse sent (fanOut (cloud w) (arrival w accounts)))
      as [results|] eqn:Hres.
    + destruct (main_received w _ _ _ _ Hargs Hload _ Hres) as [Hall _].
      rewrite Hall in Hr.
      destruct (received_origin w accounts results r Hfair Hres Hr)
        as (role & instances & Hrole & Hi & Hin).
      rewrite E in Hrole, Hi. rewrite Hacc in Hrole. injection Hrole as <-.
      rewrite Hsent in Hi. injection Hi as <-. inversion Hin.
    + unfold main in Hr. rewrite Hargs, Hload, Hres in Hr. inversion Hr.
  - intros Hok Hcreate.
    destruct (main_not_crashed w _ _ _ _ Hargs Hload Hok) as [results Hres].
    destruct (main_received w _ _ _ _ Hargs Hload _ Hres) as [Hall Hrun].
    destruct (Hrun Hcreate) as (Hstatus & Hfile & _).
    split; [assumption|]. now rewrite Hall.
Qed.

Lemma C2_witness :
  fetchFails (cloud sample.w1) "333" sample.roleC
  /\ sent (getEC2Instances (cloud sample.w1) "333" sample.roleC) = Ok []
  /\ status (main sample.w1) = Exited 0.
Proof.
  assert (fair sample.w1) as Hfair by (intros m; reflexivity).
  assert (fetchFails (cloud sample.w1) "333" sample.roleC) as Hfail
    by (apply (query_fails _ _ _ sample.cfg0 "AccessDenied"); reflexivity).
  destruct (C2_fetch_errors_are_swallowed sample.w1 "collector" "accounts.json" []
              sample.accounts "333" sample.roleC
              eq_refl eq_refl Hfair eq_refl Hfail) as (Hsent & _ & _ & Hrun).
  split; [exact Hfail|]. split; [exact Hsent|].
  apply Hrun; [vm_compute; discriminate | reflexivity].
Defined.

(** C3: for a list of N records the written file reads back as 1 + N
    rows, the header row "Account ID,Instance ID,Tag Name,Instance Type"
    first and then the row of each record in list order; reading the
    records back yields the list itself, hence the same set of records. *)
Theorem C3_csv_rows_and_round_trip (create : string -> option error)
    (filename : string) (instances : list EC2Instance) :
  create filename = None ->
  exists content rest,
    writeCSV create filename instances = (None, Some content)
    /\ content = "Account ID,Instance ID,Tag Name,Instance Type" +:+ nl +:+ rest
    /\ reader.ReadAll content = Some (csvRows instances)
    /\ length (csvRows instances) = 1 + length instances
    /\ csvRows instances = header :: map toRow instances
    /\ reader.records content = Some instances
    /\ (forall parsed, reader.records content = Some parsed ->
          parsed ≡ₚ instances /\ forall r, r ∈ parsed <-> r ∈ instances).
Proof.
  intros H. exists (csvText instances), (csvLines instances).
  split; [now apply writeCSV_created|]. split; [reflexivity|].
  split; [apply ReadAll_csvText|]. split; [simpl; now rewrite length_map|].
  split; [reflexivity|]. split; [apply records_csvText|].
  intros parsed Hp. rewrite records_csvText in Hp. injection Hp as <-.
  now split.
Qed.

Lemma C3_witness :
  exists content rest,
    writeCSV (fun _ => None) "out.csv" sample.records = (None, Some content)
    /\ content = "Account ID,Instance ID,Tag Name,Instance Type" +:+ nl +:+ rest
    /\ reader.ReadAll content = Some (csvRows sample.records)
    /\ length (csvRows sample.records) = 1 + length sample.records
    /\ csvRows sample.records = header :: map toRow sample.records
    /\ reader.records content = Some sample.records
    /\ (forall parsed, reader.records content = Some parsed ->
          parsed ≡ₚ sample.records /\ forall r, r ∈ parsed <-> r ∈ sample.records).
Proof.
  exact (C3_csv_rows_and_round_trip (fun _ => None) "out.csv" sample.records eq_refl).
Defined.

(** The scenario of the specification: one instance i-abc of type
    t3.micro named web1 in account 111 gives the row 111,i-abc,web1,t3.micro. *)
Example csvText_scenario :
  csvLines [ {| AccountID := "111"; InstanceID := "i-abc";
                TagName := "web1"; InstanceType := "t3.micro" |} ]
  = "111,i-abc,web1,t3.micro" +:+ nl.
Proof. reflexivity. Qed.

(** C9: every record of the merged list of a run carries an account id
    that is a key of the account map loaded from the configuration file. *)
Theorem C9_record_account_is_loaded (w : World) (prog inputFile : string)
    (rest : list string) (accounts : gmap string string) (r : EC2Instance) :
  Args w = prog :: inputFile :: rest ->
  loadAccountsFromFile w inputFile = inr accounts ->
  fair w ->
  r ∈ allInstances_of (main w) ->
  is_Some (accounts !! AccountID r).
Proof.
  intros Hargs Hload Hfair Hr.
  destruct (main_allInstances w r Hr)
    as (prog' & inputFile' & rest' & accounts' & results & Ha & Hl & Hres & Hall).
  rewrite Hargs in Ha. injection Ha as <- <- <-.
  rewrite Hload in Hl. injection Hl as <-.
  rewrite Hall in Hr.
  destruct (received_origin w accounts results r Hfair Hres Hr)
    as (role & _ & Hrole & _).
  now exists role.
Qed.

Lemma C9_witness :
  sample.recordB ∈ allInstances_of (main sample.w1)
  /\ is_Some (sample.accounts !! AccountID sample.recordB).
Proof.
  assert (sample.recordB ∈ allInstances_of (main sample.w1)) as Hin.
  { replace (allInstances_of (main sample.w1))
      with (sample.sentA ++ [sample.recordB]) by (vm_compute; reflexivity).
    apply elem_of_app. right. apply list_elem_of_here. }
  split; [exact Hin|].
  apply (C9_record_account_is_loaded sample.w1 "collector" "accounts.json" []).
  - reflexivity.
  - reflexivity.
  - intros m. reflexivity.
  - exact Hin.
Defined.




(** C5, as the code has it: two runs on identical inputs that differ in
    the order in which the tasks deliver write files with the same header
    and the same records, each as many times, possibly in a different
    order; the contents are identical when the delivery order is. *)
Theorem C5_same_records_up_to_order (w1 w2 : World) :
  fair w1 -> fair w2 -> sameInputs w1 w2 ->
  status (main w1) = Exited 0 ->
  exists records1 records2,
    status (main w2) = Exited 0
    /\ file (main w1) = Some (outputFile w1, csvText records1)
    /\ file (main w2) = Some (outputFile w2, csvText records2)
    /\ records1 ≡ₚ records2
    /\ ((forall accounts, arrival w1 accounts = arrival w2 accounts) ->
        csvText records1 = csvText records2).
Proof.
  intros Hfair1 Hfair2 (Hargs & Hread & Hjson & Hcloud & Hc1 & Hc2) H1.
  destruct (main_exit0 w1 H1)
    as (prog & inputFile & rest & accounts & results1 & Ha1 & Hl1 & Hr1 & _).
  assert (Args w2 = prog :: inputFile :: rest) as Ha2 by congruence.
  assert (loadAccountsFromFile w2 inputFile = inr accounts) as Hl2.
  { rewrite <- Hl1. unfold loadAccountsFromFile. rewrite <- Hread.
    destruct (ReadFile w1 inputFile); [reflexivity|]. now rewrite <- Hjson. }
  assert (arrival w1 accounts ≡ₚ arrival w2 accounts) as Hperm
    by now rewrite (Hfair1 accounts), (Hfair2 accounts).
  destruct (fanOut_Permutation _ _ _ _ Hperm Hr1) as (results2 & Hr2 & Hp).
  rewrite Hcloud in Hr2.
  destruct (main_received w1 _ _ _ _ Ha1 Hl1 _ Hr1) as [_ Hrun1].
  destruct (main_received w2 _ _ _ _ Ha2 Hl2 _ Hr2) as [_ Hrun2].
  destruct (Hrun1 (Hc1 _)) as (_ & Hf1 & _).
  destruct (Hrun2 (Hc2 _)) as (Hs2 & Hf2 & _).
  exists (concat results1), (concat results2).
  repeat (split; [assumption|]).
  intros Hsame. rewrite <- Hcloud, <- Hsame, Hr1 in Hr2. now injection Hr2 as <-.
Qed.

Lemma C5_witness :
  status (main sample.w1) = Exited 0
  /\ exists records1 records2,
       status (main sample.w2) = Exited 0
       /\ file (main sample.w1) = Some (outputFile sample.w1, csvText records1)
       /\ file (main sample.w2) = Some (outputFile sample.w2, csvText records2)
       /\ records1 ≡ₚ records2
       /\ ((forall accounts, arrival sample.w1 accounts = arrival sample.w2 accounts) ->
           csvText records1 = csvText records2).
Proof.
  split; [reflexivity|].
  apply C5_same_records_up_to_order.
  - intros m. reflexivity.
  - intros m. symmetry. apply Permutation_rev.
  - repeat split.
  - reflexivity.
Defined.

(** Delivery in the opposite order, everything else equal: the rows of
    the two files come in a different order. *)
Lemma C5_counterexample :
  fair sample.w1 /\ fair sample.w2 /\ sameInputs sample.w1 sample.w2
  /\ outputFile sample.w1 = outputFile sample.w2
  /\ file (main sample.w1) <> file (main sample.w2).
Proof.
  split; [intros m; reflexivity|].
  split; [intros m; symmetry; apply Permutation_rev|].
  split; [repeat split|]. split; [reflexivity|].
  intros H. vm_compute in H. discriminate H.
Qed.

(** ** The report and the file name *)

Lemma file_name (w : World) (name content : string) :
  file (main w) = Some (name, content) -> name = outputFile w.
Proof.
  unfold main.
  destruct (Args w) as [|prog [|inputFile rest]]; [discriminate..|].
  destruct (loadAccountsFromFile w inputFile) as [err|accounts]; [discriminate|].
  destruct (traverse sent (fanOut (cloud w) (arrival w accounts)))
    as [results|]; [|discriminate].
  fold (outputFile w).
  destruct (writeCSV (Create w) (outputFile w) (drain results))
    as [[err|] [c|]]; simpl; congruence.
Qed.

(** C6, as the code has it: the file is named
    ec2_instances_<YYYYMMDD_HHMMSS>.csv after the local wall-clock time
    read once all fetches have completed and the table has been printed,
    immediately before the CSV is written: four digits of the year, two
    each of the month, day, hour, minute and second of that reading. *)
Theorem C6_file_named_after_time_of_writing (w : World) :
  civil (wallclock w (elapsed w)) ->
  let t := wallclock w (elapsed w) in
  let YYYY := time.appendInt (time.Year t) 4 in
  let MM := time.appendInt (time.Month t) 2 in
  let DD := time.appendInt (time.Day t) 2 in
  let hh := time.appendInt (time.Hour t) 2 in
  let mm := time.appendInt (time.Minute t) 2 in
  let ss := time.appendInt (time.Second t) 2 in
  (forall name content, file (main w) = Some (name, content) ->
     name = "ec2_instances_" +:+ (YYYY +:+ MM +:+ DD +:+ "_" +:+ hh +:+ mm +:+ ss)
            +:+ ".csv")
  /\ map String.length [YYYY; MM; DD; hh; mm; ss] = [4; 2; 2; 2; 2; 2]
  /\ forallb allDigits [YYYY; MM; DD; hh; mm; ss] = true
  /\ map atoi [YYYY; MM; DD; hh; mm; ss]
     = [time.Year t; time.Month t; time.Day t;
        time.Hour t; time.Minute t; time.Second t].
Proof.
  intros (Hy & Hmo & Hd & Hh & Hmi & Hs) t YYYY MM DD hh mm ss.
  split; [|split; [|split]].
  - intros name content H. apply file_name in H. exact H.
  - cbn [map]. unfold YYYY, MM, DD, hh, mm, ss.
    rewrite (appendInt_length _ 4) by now apply itoa_length_4.
    now rewrite !(appendInt_length _ 2) by now apply itoa_length_2.
  - cbn [forallb]. unfold YYYY, MM, DD, hh, mm, ss.
    now rewrite !appendInt_digits.
  - cbn [map]. unfold YYYY, MM, DD, hh, mm, ss.
    now rewrite !appendInt_value.
Qed.

Lemma C6_witness :
  civil (wallclock sample.w1 (elapsed sample.w1))
  /\ forall name content,
       file (main sample.w1) = Some (name, content) ->
       name = "ec2_instances_20240115_143032.csv".
Proof.
  assert (civil (wallclock sample.w1 (elapsed sample.w1))) as H
    by (unfold civil; simpl; lia).
  split; [exact H|].
  exact (proj1 (C6_file_named_after_time_of_writing sample.w1 H)).
Defined.

(** The process starts at 14:30:25 and the fetches take seven ticks: the
    file carries 143032, not the time of program start. *)
Lemma C6_counterexample :
  time.Format (wallclock sample.w1 0) = "20240115_143025"
  /\ exists content,
       file (main sample.w1) = Some ("ec2_instances_20240115_143032.csv", content)
       /\ "ec2_instances_20240115_143032.csv"
          <> outputFileName (time.Format (wallclock sample.w1 0)).
Proof.
  split; [reflexivity|].
  eexists. split; [vm_compute; reflexivity|].
  intros H. vm_compute in H. discriminate H.
Qed.

Lemma fmt_row_ends (a b c d : string) : exists line, fmt.row a b c d = line +:+ nl.
Proof.
  unfold fmt.row. eexists. rewrite <- !append_assoc. reflexivity.
Qed.

(** Every line of the table body is terminated. *)
Lemma tableBody_ends (allInstances : list EC2Instance) :
  exists body, tableBody allInstances = body +:+ nl.
Proof.
  unfold tableBody. destruct allInstances as [|i l]; [now eexists|].
  cbn [length Nat.eqb]. revert i. induction l as [|j l IH]; intros i.
  - cbn [foldr]. rewrite append_nil_r. apply fmt_row_ends.
  - cbn [foldr]. destruct (IH j) as [body Hbody]. cbn [foldr] in Hbody.
    rewrite Hbody. exists (tableRow i +:+ body). now rewrite append_assoc.
Qed.

(** C8: in the output of a run that ends well the table is bounded above
    and below by a line of exactly 95 "=" characters, and the summary line
    that follows reports, in decimal, the number of records, which is the
    number of rows of the written CSV file less the header row. *)
Theorem C8_separators_and_summary (w : World) :
  status (main w) = Exited 0 ->
  let all := allInstances_of (main w) in
  exists body tail,
    stdout (main w)
    = nl +:+ separator +:+ nl
      +:+ fmt.row "Account ID" "Instance ID" "Tag Name" "Instance Type"
      +:+ separator +:+ nl
      +:+ body +:+ nl
      +:+ separator +:+ nl
      +:+ summary all +:+ nl
      +:+ tail
    /\ String.length separator = 95
    /\ separator = strings.Repeat "=" 95
    /\ summary all = "총 " +:+ itoa (length all) +:+ "개 인스턴스 조회 완료"
    /\ atoi (itoa (length all)) = length all
    /\ file (main w)
       = Some (outputFile w,
               foldr (fun row s => csvLine row +:+ s) "" (csvRows all))
    /\ length all = length (csvRows all) - 1.
Proof.
  intros H all.
  destruct (main_exit0 w H)
    as (prog & inputFile & rest & accounts & results & Ha & Hl & Hr & Hc).
  destruct (main_received w _ _ _ _ Ha Hl _ Hr) as [Hall Hrun].
  destruct (Hrun Hc) as (_ & Hfile & Hout).
  destruct (tableBody_ends all) as [body Hbody].
  exists body, (nl +:+ "✓ CSV 파일 저장 완료: " +:+ outputFile w +:+ nl).
  split.
  - rewrite Hout. fold all. rewrite <- Hall. fold all. unfold report.
    rewrite Hbody. now rewrite !append_assoc.
  - split; [reflexivity|]. split; [reflexivity|]. split; [reflexivity|].
    split; [apply atoi_itoa|].
    split; [unfold all; now rewrite Hall, Hfile, csvText_rows|].
    simpl. rewrite length_map. lia.
Qed.

Lemma C8_witness :
  status (main sample.w1) = Exited 0
  /\ exists body tail,
       stdout (main sample.w1)
       = nl +:+ separator +:+ nl
         +:+ fmt.row "Account ID" "Instance ID" "Tag Name" "Instance Type"
         +:+ separator +:+ nl
         +:+ body +:+ nl
         +:+ separator +:+ nl
         +:+ summary (allInstances_of (main sample.w1)) +:+ nl
         +:+ tail
       /\ String.length separator = 95
       /\ separator = strings.Repeat "=" 95
       /\ summary (allInstances_of (main sample.w1))
          = "총 " +:+ itoa (length (allInstances_of (main sample.w1)))
            +:+ "개 인스턴스 조회 완료"
       /\ atoi (itoa (length (allInstances_of (main sample.w1))))
          = length (allInstances_of (main sample.w1))
       /\ file (main sample.w1)
          = Some (outputFile sample.w1,
                  foldr (fun row s => csvLine row +:+ s) ""
                        (csvRows (allInstances_of (main sample.w1))))
       /\ length (allInstances_of (main sample.w1))
          = length (csvRows (allInstances_of (main sample.w1))) - 1.
Proof.
  split; [reflexivity|].
  exact (C8_separators_and_summary sample.w1 eq_refl).
Defined.


(** * Further properties of the program *)

(** ** Fatal errors *)

(** X1: when the accounts file cannot be read or is not the expected JSON,
    the run ends with status 1 right after logging the failure: nothing is
    printed, no task is launched and no file is written. *)
Theorem X1_config_error_is_fatal (w : World) (prog inputFile : string)
    (rest : list string) (e : error) :
  Args w = prog :: inputFile :: rest ->
  ReadFile w inputFile = inl e
  \/ (exists data, ReadFile w inputFile = inr data /\ Unmarshal w data = inl e) ->
  status (main w) = Exited 1
  /\ stdout (main w) = ""
  /\ allInstances_of (main w) = []
  /\ file (main w) = None
  /\ exists what,
       (what = "파일 읽기 실패: " \/ what = "JSON 파싱 실패: ")
       /\ logs (main w)
          = ["계정 정보 로드 중: " +:+ inputFile;
             "계정 정보 로드 실패: " +:+ what +:+ e].
Proof.
  intros Hargs H. unfold main. rewrite Hargs. unfold loadAccountsFromFile.
  destruct H as [H|(data & Hd & H)].
  - rewrite H. repeat (split; [reflexivity|]).
    exists "파일 읽기 실패: ". split; [now left | reflexivity].
  - rewrite Hd, H. repeat (split; [reflexivity|]).
    exists "JSON 파싱 실패: ". split; [now right | reflexivity].
Qed.

Lemma X1_witness :
  status (main sample2.unreadable) = Exited 1
  /\ stdout (main sample2.unreadable) = ""
  /\ allInstances_of (main sample2.unreadable) = []
  /\ file (main sample2.unreadable) = None
  /\ exists what,
       (what = "파일 읽기 실패: " \/ what = "JSON 파싱 실패: ")
       /\ logs (main sample2.unreadable)
          = ["계정 정보 로드 중: " +:+ "accounts.json";
             "계정 정보 로드 실패: " +:+ what
             +:+ "open accounts.json: no such file or directory"].
Proof.
  apply (X1_config_error_is_fatal sample2.unreadable "collector" "accounts.json" []).
  - reflexivity.
  - left. reflexivity.
Defined.




(** X3: when the output file cannot be created the run ends with status
    1 after the whole table has been printed: the console shows the report
    without the closing confirmation line, no file exists and the last log
    line carries the error. *)
Theorem X3_output_error_after_report (w : World) (prog inputFile : string)
    (rest : list string) (accounts : gmap string string) (e : error) :
  Args w = prog :: inputFile :: rest ->
  loadAccountsFromFile w inputFile = inr accounts ->
  status (main w) <> Crashed ->
  Create w (outputFile w) = Some e ->
  status (main w) = Exited 1
  /\ stdout (main w) = report (allInstances_of (main w))
  /\ file (main w) = None
  /\ last (logs (main w)) = Some ("CSV 저장 실패: 파일 생성 실패: " +:+ e).
Proof.
  intros Hargs Hload Hok Hc.
  destruct (main_not_crashed w _ _ _ _ Hargs Hload Hok) as [results Hr].
  unfold main. rewrite Hargs, Hload, Hr. fold (outputFile w).
  unfold writeCSV. rewrite Hc. cbv beta iota zeta.
  cbn [logs status stdout file allInstances_of option_map].
  repeat (split; [reflexivity|]). apply last_snoc.
Qed.

Lemma X3_witness :
  status (main sample2.readonly) = Exited 1
  /\ stdout (main sample2.readonly) = report (allInstances_of (main sample2.readonly))
  /\ file (main sample2.readonly) = None
  /\ last (logs (main sample2.readonly))
     = Some ("CSV 저장 실패: 파일 생성 실패: " +:+ "permission denied").
Proof.
  apply (X3_output_error_after_report sample2.readonly "collector" "accounts.json"
           [] sample.accounts "permission denied").
  - reflexivity.
  - reflexivity.
  - vm_compute. discriminate.
  - reflexivity.
Defined.



(** ** What a task sends *)

(** X5: a task that does not panic sends one record per instance of the
    response, in the order of the response (reservation by reservation);
    each record carries the task's account id and the identifier and type
    of its instance unchanged. *)
Theorem X5_records_copy_the_response (cloud : Cloud) (accountID roleArn : string)
    (instances : list EC2Instance) :
  sent (getEC2Instances cloud accountID roleArn) = Ok instances ->
  length instances = length (firstPage cloud accountID roleArn)
  /\ map AccountID instances = replicate (length instances) accountID
  /\ map (fun r => Some (InstanceID r)) instances
     = map types.InstanceId (firstPage cloud accountID roleArn)
  /\ map InstanceType instances
     = map types.InstanceType (firstPage cloud accountID roleArn).
Proof.
  intros H. apply getEC2Instances_sent in H.
  induction H as [|i r l k Hr _ IH]; [now repeat split|].
  apply toRecord_Ok in Hr as (Ha & Hid & Hty & _).
  destruct IH as (IH1 & IH2 & IH3 & IH4). cbn [length map replicate].
  split; [now rewrite IH1|]. split; [now rewrite IH2, Ha|].
  split; [now rewrite IH3, Hid | now rewrite IH4, Hty].
Qed.

Lemma X5_witness :
  sent (getEC2Instances sample.cloud0 "111" sample.roleA) = Ok sample.sentA
  /\ length sample.sentA = length (firstPage sample.cloud0 "111" sample.roleA)
  /\ map AccountID sample.sentA = replicate (length sample.sentA) "111"
  /\ map (fun r => Some (InstanceID r)) sample.sentA
     = map types.InstanceId (firstPage sample.cloud0 "111" sample.roleA)
  /\ map InstanceType sample.sentA
     = map types.InstanceType (firstPage sample.cloud0 "111" sample.roleA).
Proof.
  split; [reflexivity|].
  apply (X5_records_copy_the_response sample.cloud0 "111" sample.roleA).
  reflexivity.
Defined.

(** ** The merge *)

Lemma fanOut_lengths (cloud : Cloud) (tasks : list (string * string))
    (results : list (list EC2Instance)) :
  traverse sent (fanOut cloud tasks) = Ok results ->
  length (concat results)
  = sum_list_with (fun task => length (firstPage cloud task.1 task.2)) tasks.
Proof.
  revert results. induction tasks as [|[a r] tasks IH]; intros results H;
    cbn [fanOut map traverse] in H.
  - now injection H as <-.
  - apply bind_Ok in H as (i & Hi & H).
    apply bind_Ok in H as (rs & Hrs & [= <-]).
    cbn [concat sum_list_with]. rewrite length_app, (IH _ Hrs).
    apply getEC2Instances_sent, Forall2_length in Hi. cbn [fst snd] in *.
    rewrite <- Hi. reflexivity.
Qed.

(** X6: the merged list of a run that got past the barrier holds exactly
    what the tasks sent, nothing lost and nothing twice: it is a
    rearrangement of the per-account slices taken in map order, and its
    length is the number of instances on the first pages of all accounts. *)
Theorem X6_merge_loses_nothing (w : World) (prog inputFile : string)
    (rest : list string) (accounts : gmap string string) :
  Args w = prog :: inputFile :: rest ->
  loadAccountsFromFile w inputFile = inr accounts ->
  fair w ->
  status (main w) <> Crashed ->
  exists results,
    traverse sent (fanOut (cloud w) (map_to_list accounts)) = Ok results
    /\ allInstances_of (main w) ≡ₚ concat results
    /\ length (allInstances_of (main w))
       = sum_list_with (fun task => length (firstPage (cloud w) task.1 task.2))
                       (map_to_list accounts).
Proof.
  intros Hargs Hload Hfair Hok.
  destruct (main_not_crashed w _ _ _ _ Hargs Hload Hok) as [results Hr].
  destruct (main_received w _ _ _ _ Hargs Hload _ Hr) as [Hall _].
  destruct (fanOut_Permutation _ _ _ _ (Hfair accounts) Hr)
    as (results' & Hr' & Hp).
  exists results'. split; [assumption|]. rewrite Hall.
  split; [assumption|]. rewrite Hp. now apply fanOut_lengths.
Qed.

Lemma X6_witness :
  exists results,
    traverse sent (fanOut (cloud sample.w2) (map_to_list sample.accounts))
    = Ok results
    /\ allInstances_of (main sample.w2) ≡ₚ concat results
    /\ length (allInstances_of (main sample.w2))
       = sum_list_with
           (fun task => length (firstPage (cloud sample.w2) task.1 task.2))
           (map_to_list sample.accounts).
Proof.
  apply (X6_merge_loses_nothing sample.w2 "collector" "accounts.json" []).
  - reflexivity.
  - reflexivity.
  - intros m. symmetry. apply Permutation_rev.
  - vm_compute. discriminate.
Defined.

(** ** Runs without instances *)

(** X7: when a run that ends well found no instance at all, the table
    body is the single notice line, the summary counts 0 and the CSV file
    holds the header row alone. *)
Theorem X7_empty_inventory_report (w : World) :
  status (main w) = Exited 0 ->
  allInstances_of (main w) = [] ->
  stdout (main w)
  = nl +:+ separator +:+ nl
    +:+ fmt.row "Account ID" "Instance ID" "Tag Name" "Instance Type"
    +:+ separator +:+ nl
    +:+ "조회된 EC2 인스턴스가 없습니다." +:+ nl
    +:+ separator +:+ nl
    +:+ "총 0개 인스턴스 조회 완료" +:+ nl
    +:+ nl +:+ "✓ CSV 파일 저장 완료: " +:+ outputFile w +:+ nl
  /\ file (main w)
     = Some (outputFile w, "Account ID,Instance ID,Tag Name,Instance Type" +:+ nl).
Proof.
  intros H Hempty.
  destruct (main_exit0 w H)
    as (prog & inputFile & rest & accounts & results & Ha & Hl & Hr & Hc).
  destruct (main_received w _ _ _ _ Ha Hl _ Hr) as [Hall Hrun].
  destruct (Hrun Hc) as (_ & Hfile & Hout).
  rewrite Hall in Hempty. rewrite Hout, Hfile, Hempty. split.
  - unfold report, tableBody, summary. cbn [length Nat.eqb].
    now rewrite !append_assoc.
  - reflexivity.
Qed.

(** X8: an accounts file that holds the empty array is no error: no task
    is launched, the run reports zero loaded accounts, finds no instance
    and ends with status 0 once the output file can be created. *)
Theorem X8_empty_array_run (w : World) (prog inputFile : string)
    (rest : list string) (data : string) :
  Args w = prog :: inputFile :: rest ->
  ReadFile w inputFile = inr data ->
  Unmarshal w data = inr [] ->
  fair w ->
  Create w (outputFile w) = None ->
  status (main w) = Exited 0
  /\ allInstances_of (main w) = []
  /\ logs (main w)
     = ["계정 정보 로드 중: " +:+ inputFile; "0개 계정 로드 완료";
        "EC2 인스턴스 조회 시작..."; "CSV 파일 저장 중: " +:+ outputFile w].
Proof.
  intros Hargs Hread Hjson Hfair Hc.
  assert (loadAccountsFromFile w inputFile = inr ∅) as Hload
    by (unfold loadAccountsFromFile; now rewrite Hread, Hjson).
  assert (arrival w ∅ = []) as Harr.
  { apply Permutation_nil_r. rewrite (Hfair ∅). now rewrite map_to_list_empty. }
  assert (traverse sent (fanOut (cloud w) (arrival w ∅)) = Ok []) as Hr
    by now rewrite Harr.
  destruct (main_received w _ _ _ _ Hargs Hload _ Hr) as [Hall Hrun].
  destruct (Hrun Hc) as (Hs & _ & _).
  split; [assumption|]. split; [assumption|].
  unfold main. rewrite Hargs, Hload, Hr, Harr. fold (outputFile w).
  rewrite (writeCSV_created _ _ _ Hc). reflexivity.
Qed.

Lemma X8_witness :
  status (main sample2.noAccounts) = Exited 0
  /\ allInstances_of (main sample2.noAccounts) = []
  /\ logs (main sample2.noAccounts)
     = ["계정 정보 로드 중: " +:+ "accounts.json"; "0개 계정 로드 완료";
        "EC2 인스턴스 조회 시작...";
        "CSV 파일 저장 중: " +:+ outputFile sample2.noAccounts].
Proof.
  apply (X8_empty_array_run sample2.noAccounts "collector" "accounts.json" [] "[...]").
  - reflexivity.
  - reflexivity.
  - reflexivity.
  - intros m. reflexivity.
  - reflexivity.
Defined.

Lemma X7_witness :
  status (main sample2.noAccounts) = Exited 0
  /\ allInstances_of (main sample2.noAccounts) = []
  /\ file (main sample2.noAccounts)
     = Some (outputFile sample2.noAccounts,
             "Account ID,Instance ID,Tag Name,Instance Type" +:+ nl).
Proof.
  split; [reflexivity|]. split; [reflexivity|].
  exact (proj2 (X7_empty_inventory_report sample2.noAccounts eq_refl eq_refl)).
Defined.

(** ** The loaded accounts *)

Lemma accountsOf_keys (accountConfigs : list AccountConfig) :
  (map_to_list (accountsOf accountConfigs)).*1 ≡ₚ uniqueIDs accountConfigs.
Proof.
  apply NoDup_Permutation.
  - apply NoDup_fst_map_to_list.
  - apply NoDup_remove_dups.
  - intros a. unfold uniqueIDs. rewrite elem_of_remove_dups, <- accountsOf_dom.
    split.
    + intros H. apply list_elem_of_fmap in H as ([a' r] & -> & H).
      apply elem_of_map_to_list in H. now exists r.
    + intros [r H]. apply list_elem_of_fmap. exists (a, r).
      split; [reflexivity | now apply elem_of_map_to_list].
Qed.

Lemma remove_dups_length_le (l : list string) : length (remove_dups l) <= length l.
Proof.
  induction l as [|x l IH]; simpl; [lia|].
  destruct (decide_rel elem_of x l); simpl; lia.
Qed.

Lemma remove_dups_length_eq (l : list string) :
  length (remove_dups l) = length l <-> NoDup l.
Proof.
  induction l as [|x l IH]; simpl.
  - split; [constructor | reflexivity].
  - pose proof (remove_dups_length_le l) as Hle.
    destruct (decide_rel elem_of x l) as [Hin|Hnin]; simpl.
    + split; [lia|]. intros H. apply NoDup_cons in H as [H _]. contradiction.
    + rewrite NoDup_cons. split.
      * intros H. split; [assumption|]. apply IH. lia.
      * intros [_ H]. apply IH in H. lia.
Qed.

(** X9: the number of loaded accounts, which the run logs, is the number
    of distinct account ids of the array; it is smaller than the number of
    entries as soon as one id occurs twice. *)
Theorem X9_loaded_accounts_count (accountConfigs : list AccountConfig) :
  size (accountsOf accountConfigs) = length (uniqueIDs accountConfigs)
  /\ size (accountsOf accountConfigs) <= length accountConfigs
  /\ (size (accountsOf accountConfigs) = length accountConfigs
      <-> NoDup (map cfg_AccountID accountConfigs)).
Proof.
  assert (size (accountsOf accountConfigs) = length (uniqueIDs accountConfigs))
    as Hsize.
  { rewrite <- length_map_to_list,
      <- (length_fmap fst (map_to_list (accountsOf accountConfigs))).
    apply Permutation_length, accountsOf_keys. }
  split; [exact Hsize|]. rewrite Hsize. unfold uniqueIDs.
  rewrite <- (length_map cfg_AccountID accountConfigs).
  split; [apply remove_dups_length_le | apply remove_dups_length_eq].
Qed.

(** ** The file determines the records *)

(** X10: two record lists that are written as the same file content are
    the same list: quoting loses nothing, whatever bytes the fields hold. *)
Theorem X10_file_content_determines_records (l1 l2 : list EC2Instance) :
  csvText l1 = csvText l2 -> l1 = l2.
Proof.
  intros H. pose proof (records_csvText l1) as H1.
  rewrite H, records_csvText in H1. now injection H1.
Qed.

Lemma X10_witness :
  csvText sample.records = csvText sample.records
  /\ sample.records = sample.records.
Proof.
  split; [reflexivity|].
  apply X10_file_content_determines_records. reflexivity.
Defined.

(** ** The log *)








(** ** The account id of a record *)

Lemma toRecord_relabel (a1 a2 : string) (i : types.Instance) :
  toRecord a2 i
  = match toRecord a1 i with
    | Ok r => Ok (relabel a2 r)
    | Panic => Panic
    end.
Proof.
  unfold toRecord. unbind.
  destruct (types.InstanceId i); simpl; [|reflexivity].
  now destruct (findTagName (types.Tags i)).
Qed.

Lemma traverse_relabel (a1 a2 : string) (l : list types.Instance) :
  traverse (toRecord a2) l
  = match traverse (toRecord a1) l with
    | Ok rs => Ok (map (relabel a2) rs)
    | Panic => Panic
    end.
Proof.
  induction l as [|i l IH]; [reflexivity|].
  cbn [traverse]. unbind. rewrite (toRecord_relabel a1 a2 i), IH.
  destruct (toRecord a1 i); [|reflexivity].
  now destruct (traverse (toRecord a1) l).
Qed.

(** X12: the account id of a record is the one of the configuration
    entry, never read from the response: two entries that name the same
    role yield the same instances, each under its own account id. *)
Theorem X12_account_id_comes_from_the_entry (cloud : Cloud)
    (a1 a2 roleArn : string) (instances : list EC2Instance) :
  LoadDefaultConfig cloud a1 = LoadDefaultConfig cloud a2 ->
  sent (getEC2Instances cloud a1 roleArn) = Ok instances ->
  sent (getEC2Instances cloud a2 roleArn) = Ok (map (relabel a2) instances).
Proof.
  unfold getEC2Instances. intros <-.
  destruct (LoadDefaultConfig cloud a1) as [err|cfg].
  - now intros [= <-].
  - destruct (DescribeInstances cloud (assumeRole cfg roleArn) emptyInput)
      as [err|result].
    + now intros [= <-].
    + rewrite !collectReservations_traverse. unbind.
      rewrite (traverse_relabel a1 a2).
      destruct (traverse (toRecord a1) (flatten (ec2.Reservations result)));
        simpl; [|discriminate].
      now intros [= <-].
Qed.

Lemma X12_witness :
  sent (getEC2Instances sample.cloud0 "111" sample.roleA) = Ok sample.sentA
  /\ sent (getEC2Instances sample.cloud0 "999" sample.roleA)
     = Ok (map (relabel "999") sample.sentA).
Proof.
  split; [reflexivity|].
  apply (X12_account_id_comes_from_the_entry sample.cloud0 "111" "999").
  - reflexivity.
  - reflexivity.
Defined.

(** ** The width of a table row *)

Section Runes.
Import utf8.

Lemma between_ascii (c : ascii) (lo hi : N) :
  (N_of_ascii c < 128)%N -> (128 <= lo)%N -> between lo (N_of_ascii c) hi = false.
Proof.
  intros Hc Hlo. unfold between. apply andb_false_iff. left.
  apply N.leb_gt. lia.
Qed.

Ltac split_ifs :=
  repeat match goal with
         | |- context [if ?b then _ else _] => destruct b
         end.

Lemma decode_width_bounds (c0 : ascii) (s1 : string) :
  1 <= snd (DecodeRuneInString (String c0 s1)) <= String.length (String c0 s1).
Proof.
  unfold DecodeRuneInString.
  destruct s1 as [|c1 [|c2 [|c3 s4]]]; split_ifs; simpl; lia.
Qed.

(** An ASCII byte after a string does not change how its first rune is
    decoded: it is no continuation byte. *)
Lemma decode_width_append (c0 : ascii) (s1 : string) (c : ascii) (t : string) :
  (N_of_ascii c < 128)%N ->
  snd (DecodeRuneInString (String c0 s1 +:+ String c t))
  = snd (DecodeRuneInString (String c0 s1)).
Proof.
  intros Hc.
  pose proof (between_ascii c) as Hb.
  unfold DecodeRuneInString. cbn [String.append].
  destruct (N.ltb (N_of_ascii c0) 128); [reflexivity|].
  destruct (between 194 (N_of_ascii c0) 223).
  { destruct s1 as [|c1 s1]; cbn [String.append]; [|reflexivity].
    now rewrite Hb by lia. }
  destruct (between 224 (N_of_ascii c0) 239).
  { destruct s1 as [|c1 [|c2 s1]]; cbn [String.append]; [| |reflexivity].
    - destruct t as [|c2 t]; [reflexivity|].
      destruct (N.eqb (N_of_ascii c0) 224), (N.eqb (N_of_ascii c0) 237);
        now rewrite Hb by lia.
    - rewrite (Hb 128%N 191%N) by lia. now rewrite andb_false_r. }
  destruct (between 240 (N_of_ascii c0) 244); [|reflexivity].
  destruct s1 as [|c1 [|c2 [|c3 s1]]]; cbn [String.append]; [| | |reflexivity].
  - destruct t as [|c2 [|c3 t]]; [reflexivity..|].
    destruct (N.eqb (N_of_ascii c0) 240), (N.eqb (N_of_ascii c0) 244);
      now rewrite Hb by lia.
  - destruct t as [|c3 t]; [reflexivity|].
    rewrite (Hb 128%N 191%N) by lia. now rewrite andb_false_r.
  - rewrite (Hb 128%N 191%N) by lia. now rewrite andb_false_r.
Qed.

Lemma skip_append (n : nat) (s t : string) :
  n <= String.length s -> skip n (s +:+ t) = skip n s +:+ t.
Proof.
  revert s. induction n as [|n IH]; intros s H.
  - now destruct s.
  - destruct s as [|c s]; simpl in *; [lia|]. apply IH. lia.
Qed.

Lemma skip_length (n : nat) (s : string) :
  String.length (skip n s) = String.length s - n.
Proof.
  revert s. induction n as [|n IH]; intros s.
  - destruct s; simpl; lia.
  - destruct s as [|c s]; simpl; [reflexivity | apply IH].
Qed.

(** Enough fuel is any fuel. *)
Lemma count_aux_fuel (n : nat) (s : string) (fuel1 fuel2 : nat) :
  String.length s <= n -> String.length s <= fuel1 -> String.length s <= fuel2 ->
  count_aux fuel1 s = count_aux fuel2 s.
Proof.
  revert s fuel1 fuel2. induction n as [|n IH]; intros s fuel1 fuel2 Hn H1 H2.
  - destruct s; simpl in Hn; [|lia]. now destruct fuel1, fuel2.
  - destruct s as [|c0 s1]; [now destruct fuel1, fuel2|].
    destruct fuel1 as [|fuel1]; [simpl in H1; lia|].
    destruct fuel2 as [|fuel2]; [simpl in H2; lia|].
    cbn [count_aux]. f_equal.
    pose proof (decode_width_bounds c0 s1) as [Hw _].
    pose proof (skip_length (snd (DecodeRuneInString (String c0 s1))) (String c0 s1))
      as Hs.
    set (width := snd (DecodeRuneInString (String c0 s1))) in *.
    cbn [String.length] in *. apply IH; lia.
Qed.

Lemma count_append_ascii (n : nat) (s : string) (c : ascii) (t : string) :
  (N_of_ascii c < 128)%N ->
  String.length s <= n ->
  RuneCountInString (s +:+ String c t)
  = RuneCountInString s + RuneCountInString (String c t).
Proof.
  intros Hc. revert s. induction n as [|n IH]; intros s Hn.
  - destruct s; simpl in Hn; [reflexivity | lia].
  - destruct s as [|c0 s1]; [reflexivity|].
    unfold RuneCountInString at 1 2. cbn [String.append String.length count_aux].
    change (String c0 (s1 +:+ String c t)) with (String c0 s1 +:+ String c t).
    rewrite decode_width_append by assumption.
    pose proof (decode_width_bounds c0 s1) as [Hw1 Hw2].
    pose proof (skip_length (snd (DecodeRuneInString (String c0 s1))) (String c0 s1))
      as Hs.
    rewrite skip_append by assumption.
    set (width := snd (DecodeRuneInString (String c0 s1))) in *.
    set (s' := skip width (String c0 s1)) in *.
    cbn [String.length] in *.
    rewrite (count_aux_fuel (String.length (s' +:+ String c t)) _ _
               (String.length (s' +:+ String c t)))
      by (rewrite ?length_append; simpl; lia).
    rewrite (count_aux_fuel (String.length s') s' _ (String.length s')) by lia.
    fold (RuneCountInString (s' +:+ String c t)). fold (RuneCountInString s').
    rewrite IH by lia. reflexivity.
Qed.

Lemma count_ascii_cons (c : ascii) (t : string) :
  (N_of_ascii c < 128)%N ->
  RuneCountInString (String c t) = S (RuneCountInString t).
Proof.
  intros Hc. unfold RuneCountInString. cbn [String.length count_aux].
  f_equal. unfold DecodeRuneInString.
  apply N.ltb_lt in Hc. rewrite Hc. reflexivity.
Qed.

Lemma count_spaces (k : nat) : RuneCountInString (strings.Repeat " " k) = k.
Proof.
  induction k as [|k IH]; [reflexivity|].
  cbn [strings.Repeat String.append].
  rewrite count_ascii_cons by (vm_compute; reflexivity). now rewrite IH.
Qed.

Lemma count_padRight (wid : nat) (s : string) :
  RuneCountInString (fmt.padRight wid s) = Nat.max wid (RuneCountInString s).
Proof.
  unfold fmt.padRight.
  destruct (wid - RuneCountInString s) as [|k] eqn:E.
  - cbn [strings.Repeat]. rewrite append_nil_r. lia.
  - cbn [strings.Repeat String.append].
    rewrite (count_append_ascii (String.length s)) by (vm_compute; reflexivity || lia).
    rewrite count_ascii_cons by (vm_compute; reflexivity).
    rewrite count_spaces. lia.
Qed.
End Runes.

(** X13: a table row is as wide as its columns: each value takes its
    column width (15, 20, 30 and 20 characters) or its own length when
    that is longer, counted in runes as [fmt] does, and the columns are
    separated by one space.  A row whose values fit is 88 characters wide,
    so the columns line up; a longer value is printed whole and widens its
    row. *)
Theorem X13_table_row_width (instance : EC2Instance) :
  let width := utf8.RuneCountInString in
  width (tableRow instance)
  = Nat.max 15 (width (AccountID instance)) + 1
    + Nat.max 20 (width (InstanceID instance)) + 1
    + Nat.max 30 (width (TagName instance)) + 1
    + Nat.max 20 (width (InstanceType instance)) + 1
  /\ (width (AccountID instance) <= 15 ->
      width (InstanceID instance) <= 20 ->
      width (TagName instance) <= 30 ->
      width (InstanceType instance) <= 20 ->
      width (tableRow instance) = 88 + 1).
Proof.
  intros width.
  assert (forall c : ascii, (N_of_ascii c < 128)%N ->
          forall s t, width (s +:+ String c t) = width s + S (width t)) as Hcat.
  { intros c Hc s t. unfold width.
    rewrite (count_append_ascii (String.length s)) by (assumption || lia).
    now rewrite count_ascii_cons. }
  assert (width (tableRow instance)
          = Nat.max 15 (width (AccountID instance)) + 1
            + Nat.max 20 (width (InstanceID instance)) + 1
            + Nat.max 30 (width (TagName instance)) + 1
            + Nat.max 20 (width (InstanceType instance)) + 1) as H.
  { unfold tableRow, fmt.row, nl. cbn [String.append].
    rewrite !Hcat by (vm_compute; reflexivity).
    unfold width. rewrite !count_padRight.
    change (utf8.RuneCountInString "") with 0. lia. }
  split; [exact H|]. intros Ha Hi Hn Ht. rewrite H. lia.
Qed.

Lemma X13_witness :
  utf8.RuneCountInString (tableRow sample.recordB) = 88 + 1.
Proof.
  apply (proj2 (X13_table_row_width sample.recordB)); vm_compute; lia.
Defined.


(** ** The lines of the file *)

Lemma countLF_append (a b : string) : countLF (a +:+ b) = countLF a + countLF b.
Proof.
  induction a as [|c a IH]; [reflexivity|].
  cbn [String.append countLF]. rewrite IH. lia.
Qed.

Lemma countLF_escape (f : string) : countLF (csv.escape false f) = countLF f.
Proof.
  induction f as [|c f IH]; [reflexivity|]. cbn [csv.escape countLF].
  destruct (Ascii.eqb_spec c DQUOTE) as [->|_]; [cbn [countLF]; now rewrite IH|].
  destruct (Ascii.eqb_spec c CR) as [->|_]; [cbn [countLF]; now rewrite IH|].
  destruct (Ascii.eqb_spec c LF) as [->|Hlf]; cbn [countLF].
  - now rewrite Ascii.eqb_refl, IH.
  - apply Ascii.eqb_neq in Hlf. now rewrite Hlf, IH.
Qed.

Lemma countLF_writeField (f : string) :
  countLF (csv.writeField csv.NewWriter f) = countLF f.
Proof.
  unfold csv.writeField. destruct (csv.fieldNeedsQuotes csv.NewWriter f);
    [|reflexivity].
  change (csv.UseCRLF csv.NewWriter) with false.
  cbn [String.append countLF]. rewrite countLF_append, countLF_escape.
  change (countLF (String DQUOTE "")) with 0.
  change (Ascii.eqb DQUOTE LF) with false. cbv iota. lia.
Qed.

Lemma countLF_csvTail (fields : list string) :
  countLF (csvTail fields) = sum_list_with countLF fields + 1.
Proof.
  induction fields as [|f fs IH]; [reflexivity|].
  cbn [csvTail countLF sum_list_with].
  change (Ascii.eqb COMMA LF) with false. cbv iota.
  rewrite countLF_append, countLF_writeField, IH. lia.
Qed.

Lemma countLF_csvLine (instance : EC2Instance) :
  countLF (csvLine (toRow instance)) = fieldLFs instance + 1.
Proof.
  unfold toRow. rewrite csvLine_tail, countLF_append, countLF_writeField.
  rewrite countLF_csvTail. unfold fieldLFs. cbn [sum_list_with]. lia.
Qed.

(** X14: the file has one line feed per row, the header included, plus
    the line feeds the fields themselves hold (they are written as they
    are, inside quotes): with no line break in any field the file has
    exactly 1 + N lines for N records. *)
Theorem X14_lines_of_the_file (instances : list EC2Instance) :
  countLF (csvText instances)
  = 1 + length instances + sum_list_with fieldLFs instances
  /\ (Forall (fun instance => fieldLFs instance = 0) instances ->
      countLF (csvText instances) = 1 + length instances).
Proof.
  assert (countLF (csvText instances)
          = 1 + length instances + sum_list_with fieldLFs instances) as H.
  { unfold csvText. rewrite countLF_append.
    change (countLF (csvLine header)) with 1.
    induction instances as [|i l IH]; [reflexivity|].
    unfold csvLines in *. cbn [foldr length sum_list_with].
    rewrite countLF_append, countLF_csvLine. lia. }
  split; [exact H|]. intros Hall. rewrite H. clear H.
  assert (sum_list_with fieldLFs instances = 0) as ->; [|lia].
  induction Hall as [|i l Hi _ IH]; [reflexivity|].
  cbn [sum_list_with]. lia.
Qed.

Lemma X14_witness :
  countLF (csvText sample.records) = 1 + length sample.records.
Proof.
  apply (proj2 (X14_lines_of_the_file sample.records)).
  repeat constructor.
Defined.

(** ** Blocks of the merged list *)

(** X15: the merged list is the concatenation, in the order of arrival,
    of the slices of the tasks: the records of one account form one
    contiguous block, in the order of that account's response. *)
Theorem X15_merged_list_is_blocks (w : World) (prog inputFile : string)
    (rest : list string) (accounts : gmap string string) :
  Args w = prog :: inputFile :: rest ->
  loadAccountsFromFile w inputFile = inr accounts ->
  status (main w) <> Crashed ->
  exists results,
    Forall2 (fun task slice =>
               sent (getEC2Instances (cloud w) task.1 task.2) = Ok slice
               /\ Forall2 (fun i r => toRecord task.1 i = Ok r)
                          (firstPage (cloud w) task.1 task.2) slice)
            (arrival w accounts) results
    /\ allInstances_of (main w) = concat results.
Proof.
  intros Hargs Hload Hok.
  destruct (main_not_crashed w _ _ _ _ Hargs Hload Hok) as [results Hr].
  destruct (main_received w _ _ _ _ Hargs Hload _ Hr) as [Hall _].
  exists results. split; [|assumption].
  apply traverse_Ok in Hr. unfold fanOut in Hr.
  apply Forall2_fmap_l in Hr.
  eapply Forall2_impl; [exact Hr|].
  intros task slice H. split; [assumption | now apply getEC2Instances_sent].
Qed.

Lemma X15_witness :
  exists results,
    Forall2 (fun task slice =>
               sent (getEC2Instances (cloud sample.w2) task.1 task.2) = Ok slice
               /\ Forall2 (fun i r => toRecord task.1 i = Ok r)
                          (firstPage (cloud sample.w2) task.1 task.2) slice)
            (arrival sample.w2 sample.accounts) results
    /\ allInstances_of (main sample.w2) = concat results.
Proof.
  apply (X15_merged_list_is_blocks sample.w2 "collector" "accounts.json" []).
  - reflexivity.
  - reflexivity.
  - vm_compute. discriminate.
Defined.
